(** * The optimus worker engine (optimus/engine.go)

    A shallow embedding of the epoch orchestrator of the worker optimizer:
    the optimization input and its free-device snapshots, the order filter
    chain, the knapsack, the optimization-method factory and the epoch
    itself ([workerEngine.execute]).

    Go values are embedded as follows.
    - a big.Int and the [sonm.BigInt], [sonm.Price] wrappers around it are [Z].
    - [uint64] and [int64] are [Z] where the code converts or multiplies them,
      with the wrap-around written as [to_int64] and [Uint64]; the amounts of
      a resource tuple and the flag sets, which it only passes on, are [N].
    - [float64] is IEEE binary64, [spec_float] with precision 53 and maximal
      exponent 1024.
    - [map[string]T] is [gmap string T]; a [range] over it goes through an
      enumeration of its entries, see [MapRange].
    - [error] is the message it carries.
    - code that engine.go calls and that lives in other files comes in as the
      operations of a class ([DeviceManagerOps], [HardwareOps], [WorkerOps],
      [OptimizerOps]). *)

From Stdlib Require Import ZArith List Bool Lia SpecFloat.
From stdpp Require Import base option list gmap strings pretty.

Local Open Scope Z_scope.

(** ** Machine integers and floats *)

(** Go's [int64(x)] and the result of [int64] arithmetic: the value modulo
    2^64, read as a signed number. *)
Definition to_int64 (z : Z) : Z := (z + 2 ^ 63) mod 2 ^ 64 - 2 ^ 63.

(** [Uint64] of a big.Int: the low 64 bits of the magnitude. *)
Definition Uint64 (z : Z) : Z := Z.abs z mod 2 ^ 64.

Definition float64 : Type := spec_float.

(** [float64(n)] for an integer [n]: the nearest binary64, ties to even. *)
Definition float64_of_Z (n : Z) : float64 :=
  binary_normalize 53 1024 n 0 false.

(** The constant [1e-18], rounded to binary64: 0x1.2725dd1d243acp-60. *)
Definition f1e_18 : float64 := S754_finite false 5192296858534828 (-112).

Definition float64_mul (x y : float64) : float64 := SFmul 53 1024 x y.

(** ** Protocol messages (package sonm) *)

Definition error : Type := string.

(** [common.Address], 20 bytes read as a number; the zero value is 0. *)
Definition Address : Type := N.

(** Modelled from the spec: sonm.OrderType is declared outside engine.go;
    an order is a BID or an ASK. *)
Inductive OrderType := OrderType_BID | OrderType_ASK.

#[global] Instance OrderType_eq_dec : EqDecision OrderType.
Proof. solve_decision. Defined.

(** Modelled from the spec: sonm.AskPlanResources is declared outside
    engine.go; this is the resource tuple of the data model, with the
    capability set a bit set and one entry per GPU. *)
Record GpuResource := {
  vendor : N;
  memory_bytes : N;
  hash_rate : N;
}.

Record Resources := {
  cpu_cores : N;
  ram_bytes : N;
  storage_bytes : N;
  net_in_bps : N;
  net_out_bps : N;
  NetFlags : N;
  gpus : list GpuResource;
}.

(** [resources.Network.NetFlags = flags] *)
Definition set_NetFlags (flags : N) (r : Resources) : Resources :=
  {| cpu_cores := cpu_cores r; ram_bytes := ram_bytes r;
     storage_bytes := storage_bytes r; net_in_bps := net_in_bps r;
     net_out_bps := net_out_bps r; NetFlags := flags; gpus := gpus r |}.

Module Order.
(** A market order; every field of the message is set. *)
Record t := {
  Id : Z;
  AuthorID : Address;
  CounterpartyID : Address;
  OrderType : OrderType;
  Price : Z;
  Duration : Z;              (* uint64, seconds *)
  Benchmarks : list Z;
  Netflags : N;
}.
End Order.

Module AskPlan.
Record t := {
  ID : string;
  OrderID : option Z;
  Price : Z;                 (* Price.PerSecond *)
  Duration : Z;              (* Duration.Nanoseconds, int64 *)
  Resources : Resources;
  Identity : Z;
  Tag : string;
  CreateTime : Z;
}.

(** [plan.GetDuration().Unwrap()]: the duration as a [time.Duration]. *)
Definition GetDuration (p : t) : Z := Duration p.

(** Modelled from the spec: AskPlan.UnsoldDuration is declared outside
    engine.go; the unsold duration is now − plan.creation_time. *)
Definition UnsoldDuration (now : Z) (p : t) : Z := now - CreateTime p.
End AskPlan.

(** Modelled from the spec: sonm.SumPrice is declared outside engine.go; it
    is the sum of the per-second prices as a big integer. *)
Definition SumPrice (plans : list AskPlan.t) : Z :=
  foldr (fun p acc => AskPlan.Price p + acc) 0 plans.

Record MarketOrder := {
  GetOrder : Order.t;
  CreatedTS : Z;
}.

(** ** The device manager (optimus/device_manager.go), as engine.go uses it *)

Class DeviceManagerOps (DM Devices : Type) := {
  (** [newDeviceManager(devices, freeDevices, mapping)] *)
  newDeviceManager : Devices -> Devices -> error + DM;
  (** [Consume(benchmarks, netflags)]: the manager after the call and either
      the resources taken or the error. *)
  Consume : list Z -> N -> DM -> DM * (error + Resources);
  (** [Contains(benchmarks, netflags)] *)
  Contains : list Z -> N -> DM -> bool;
}.

(** Modelled from the spec: DeviceManager.Consume is declared outside
    engine.go; by the data model it "atomically either produces a concrete
    request and subtracts it from the free capacity, or fails without
    mutation". *)
Definition Consume_atomic `{DeviceManagerOps DM Devices} : Prop :=
  forall benchmarks netflags (dm dm' : DM) err,
    Consume benchmarks netflags dm = (dm', inl err) -> dm' = dm.

(** ** Knapsack *)

Module Knapsack.
Section Knapsack.
Context `{DeviceManagerOps DM Devices}.

Record t := {
  manager : DM;
  plans : list AskPlan.t;
}.

Definition NewKnapsack (deviceManager : DM) : t :=
  {| manager := deviceManager; plans := [] |}.

(** The plan [Put] builds for an order from the consumed resources. *)
Definition planFor (order : Order.t) (resources : Resources) : AskPlan.t :=
  {| AskPlan.ID := "";
     AskPlan.OrderID := Some (Order.Id order);
     AskPlan.Price := Order.Price order;
     AskPlan.Duration :=
       to_int64 (1000000000 * to_int64 (Order.Duration order));
     AskPlan.Resources := set_NetFlags (Order.Netflags order) resources;
     AskPlan.Identity := 0;
     AskPlan.Tag := "";
     AskPlan.CreateTime := 0 |}.

(** [Put]: the knapsack after the call and the error, if any. *)
Definition Put (order : Order.t) (m : t) : t * option error :=
  match Consume (Order.Benchmarks order) (Order.Netflags order) (manager m) with
  | (dm, inl err) => ({| manager := dm; plans := plans m |}, Some err)
  | (dm, inr resources) =>
      ({| manager := dm; plans := plans m ++ [planFor order resources] |},
       None)
  end.

Definition Price (m : t) : Z := SumPrice (plans m).

Definition PPSf64 (m : t) : float64 :=
  float64_mul (float64_of_Z (Uint64 (Price m))) f1e_18.

Definition Plans (m : t) : list AskPlan.t := plans m.
End Knapsack.
End Knapsack.

Arguments Knapsack.t : clear implicits.

(** ** Hardware and resources (packages hardware and sonm), as engine.go uses them *)

Class HardwareOps (Devices : Type) := {
  (** [workerHardware.AskPlanResources()]: everything the worker has. *)
  AskPlanResources : Devices -> Resources;
  (** [freeResources.Sub(other)]: the remaining resources, or the error. *)
  Sub : Resources -> Resources -> error + Resources;
  (** [workerHardware.LimitTo(resources)] followed by [IntoProto()]. *)
  LimitTo : Devices -> Resources -> error + Devices;
  (** [devices.GetNetwork().GetNetFlags()] *)
  GetNetFlags : Devices -> N;
  (** [workerFlags.ConverseImplication(orderFlags)] *)
  ConverseImplication : N -> N -> bool;
}.

(** ** Ranging over a Go map

    Go leaves the order of a [range] over a map unspecified. A loop over a
    map is written over [range m], an enumeration of the entries of [m];
    nothing but [range_entries] is known about it. *)
Class MapRange := {
  range : forall {A : Type}, gmap string A -> list (string * A);
  range_entries : forall (A : Type) (m : gmap string A), range m ≡ₚ map_to_list m;
}.

(** ** Configuration *)

(** The order policy of the configuration: [PolicySpotOnly], the one
    policy engine.go names, or any other value of the type. *)
Inductive OrderPolicy :=
  | PolicySpotOnly
  | PolicyOther (code : Z).

Inductive NewGenomeLab := NewPackedOrdersNewGenome | NewDecisionOrdersNewGenome.

Record SCAKKTModel := { MaxIterations : Z }.

(** The optimization methods the default factory can build; loggers are
    left out. *)
#[warnings="-register-all"]
Inductive OptimizationMethod :=
  | BranchBoundModel
  | BatchModel (Methods : list OptimizationMethod)
  | GreedyLinearRegressionModel
      (orders : list MarketOrder) (regression : SCAKKTModel) (exhaustionLimit : Z)
  | GeneticModel
      (newGenomeLab : NewGenomeLab) (PopulationSize MaxGenerations : Z) (MaxAge : Z).

(** [time.Minute], in nanoseconds. *)
Definition Minute : Z := 60 * 1000000000.

Definition defaultOptimizationMethodFactory_Create
    (orders matchedOrders : list MarketOrder) : OptimizationMethod :=
  if Z.of_nat (length matchedOrders) <? 128 then BranchBoundModel
  else
    BatchModel
      [ GreedyLinearRegressionModel orders {| MaxIterations := 10000000 |} 128;
        GeneticModel NewPackedOrdersNewGenome 256 128 (5 * Minute);
        GeneticModel NewDecisionOrdersNewGenome 512 64 (5 * Minute) ].

Record optimizationConfig := {
  (** [Model.Create(orders, matchedOrders, log)] *)
  Model : list MarketOrder -> list MarketOrder -> OptimizationMethod;
}.

Record workerConfig := {
  DryRun : bool;
  PriceThreshold : Z;
  StaleThreshold : Z;
  PreludeTimeout : Z;
  cfgOrderPolicy : OrderPolicy;
  cfgIdentity : Z;
  Optimization : optimizationConfig;
}.

Record workerEngine := {
  cfg : workerConfig;
  addr : Address;
  masterAddr : Address;
}.

(** ** The order filter *)

Definition OrderFilter : Type := Order.t -> bool.

(** [FittingFunc.Filter]: the loop returns at the first filter that rejects. *)
Fixpoint Filter (Filters : list OrderFilter) (order : Order.t) : bool :=
  match Filters with
  | [] => true
  | filter :: rest => if filter order then Filter rest order else false
  end.

(** How many filters the loop of [Filter] calls before it returns. *)
Fixpoint Filter_calls (Filters : list OrderFilter) (order : Order.t) : nat :=
  match Filters with
  | [] => O
  | filter :: rest => if filter order then S (Filter_calls rest order) else 1%nat
  end.

Section Filters.
Context `{DeviceManagerOps DM Devices} `{!HardwareOps Devices}.

(** [m.blacklist.IsAllowed], as the blacklist stands in this epoch. *)
Variable IsAllowed : Address -> bool.

Definition filter_type : OrderFilter :=
  fun order => bool_decide (Order.OrderType order = OrderType_BID).

Definition filter_policy (m : workerEngine) : OrderFilter :=
  fun order =>
    match cfgOrderPolicy (cfg m) with
    | PolicySpotOnly => Order.Duration order =? 0
    | _ => false
    end.

Definition filter_blacklist : OrderFilter :=
  fun order => IsAllowed (Order.AuthorID order).

Definition filter_netflags (devices : Devices) : OrderFilter :=
  fun order => ConverseImplication (GetNetFlags devices) (Order.Netflags order).

Definition filter_counterparty (m : workerEngine) : OrderFilter :=
  fun order =>
    let counterpartyID := Order.CounterpartyID order in
    (counterpartyID =? 0)%N || (counterpartyID =? addr m)%N
    || (counterpartyID =? masterAddr m)%N.

Definition filter_devices (deviceManager : DM) : OrderFilter :=
  fun order => Contains (Order.Benchmarks order) (Order.Netflags order) deviceManager.

Definition filters (m : workerEngine) (deviceManager : DM) (devices : Devices)
    : list OrderFilter :=
  [ filter_type; filter_policy m; filter_blacklist; filter_netflags devices;
    filter_counterparty m; filter_devices deviceManager ].

Definition matchingOrders (m : workerEngine) (deviceManager : DM)
    (devices : Devices) (orders : list MarketOrder) : list MarketOrder :=
  List.filter
    (fun order => Filter (filters m deviceManager devices) (GetOrder order))
    orders.
End Filters.

(** ** The optimization input *)

Section OptimizationInput.
Context `{HardwareOps Devices} `{!MapRange}.

Record optimizationInput := {
  Orders : list MarketOrder;
  Devices_ : Devices;
  Plans : gmap string AskPlan.t;
}.

Definition VictimPlans (m : optimizationInput) : gmap string AskPlan.t :=
  foldl
    (fun victims '(id, plan) =>
       if AskPlan.GetDuration plan =? 0 then <[id := plan]> victims else victims)
    ∅ (range (Plans m)).

(** The loop of [freeDevices]: every plan that is not a removal victim is
    subtracted, in the order of the range; the first failure ends it. *)
Fixpoint subtractPlans (entries : list (string * AskPlan.t))
    (removalVictims : gmap string AskPlan.t) (freeResources : Resources)
    : error + Resources :=
  match entries with
  | [] => inr freeResources
  | (id, plan) :: rest =>
      match removalVictims !! id with
      | Some _ => subtractPlans rest removalVictims freeResources
      | None =>
          match Sub freeResources (AskPlan.Resources plan) with
          | inl err => inl err
          | inr freeResources' => subtractPlans rest removalVictims freeResources'
          end
      end
  end.

Definition freeDevices (m : optimizationInput)
    (removalVictims : gmap string AskPlan.t) : error + Devices :=
  let workerHardware := Devices_ m in
  let freeResources := AskPlanResources workerHardware in
  match subtractPlans (range (Plans m)) removalVictims freeResources with
  | inl err => inl ("failed to virtualize resource releasing: " +:+ err)
  | inr freeResources =>
      match LimitTo workerHardware freeResources with
      | inl err => inl ("failed to limit virtual free hardware: " +:+ err)
      | inr freeWorkerHardware => inr freeWorkerHardware
      end
  end.

Definition FreeDevices (m : optimizationInput) : error + Devices :=
  freeDevices m ∅.

Definition VirtualFreeDevices (m : optimizationInput) : error + Devices :=
  freeDevices m (VictimPlans m).

Definition optimizationInput_Price (m : optimizationInput) : Z :=
  SumPrice (foldl (fun plans '(_, plan) => plans ++ [plan]) [] (range (Plans m))).
End OptimizationInput.

Arguments optimizationInput : clear implicits.

(** ** Splitting plans *)

(** [plan.GetOrderID().Unwrap()]. [Unwrap] is declared outside engine.go;
    here an order id that is not set reads as 0. *)
Definition GetOrderID (plan : AskPlan.t) : Z := default 0 (AskPlan.OrderID plan).

(** [plan.GetOrderID().Unwrap().String()]: the id in decimal. *)
Definition orderKey (plan : AskPlan.t) : string := pretty (GetOrderID plan).

Section SplitPlans.
Context `{MapRange}.

Definition orderKeys (plans : list AskPlan.t) : gset string :=
  foldl (fun orders plan => {[orderKey plan]} ∪ orders) ∅ plans.

Definition splitPlans (plans : gmap string AskPlan.t) (candidates : list AskPlan.t)
    : list AskPlan.t * list AskPlan.t * list AskPlan.t :=
  let orders := orderKeys (snd <$> range plans) in
  let newOrders := orderKeys candidates in
  let '(create, ignore) :=
    foldl
      (fun '(create, ignore) plan =>
         if decide (orderKey plan ∈ orders) then (create, ignore ++ [plan])
         else (create ++ [plan], ignore))
      ([], []) candidates in
  let remove :=
    foldl
      (fun remove '(_, plan) =>
         if decide (orderKey plan ∈ newOrders) then remove else remove ++ [plan])
      [] (range plans) in
  (create, remove, ignore).
End SplitPlans.

(** ** The world of an epoch

    The engine talks to the worker, the market, the blacklist and the clock.
    [W] is the state of all that; a call takes the state and gives the state
    after it with its reply. *)

(** The orders in which the three goroutines of [optimizationInput] can
    finish: the one for the market orders, the one for the devices and the
    one for the plans. *)
Inductive FinishOrder :=
  | OrdersDevicesPlans | OrdersPlansDevices
  | DevicesOrdersPlans | DevicesPlansOrders
  | PlansOrdersDevices | PlansDevicesOrders.

Class WorkerOps (W Devices : Type) := {
  (** [worker.NextMaintenance]: when the next maintenance starts. *)
  NextMaintenance : W -> W * (error + Z);
  (** [time.Now()] *)
  Now : W -> Z;
  Blacklist_Update : W -> W * option error;
  Blacklist_IsAllowed : W -> Address -> bool;
  (** [marketCache.ActiveOrders] *)
  ActiveOrders : W -> W * (error + list MarketOrder);
  (** [worker.Devices] *)
  Worker_Devices : W -> W * (error + Devices);
  (** [worker.AskPlans] *)
  Worker_AskPlans : W -> W * (error + gmap string AskPlan.t);
  (** [worker.RemoveAskPlans(ids)] *)
  RemoveAskPlans : list string -> W -> W * option error;
  (** [market.GetOrderInfo(id)] *)
  GetOrderInfo : Z -> W -> W * (error + Order.t);
  (** [worker.CreateAskPlan(plan)]: the id of the new plan. *)
  CreateAskPlan : AskPlan.t -> W -> W * (error + string);
  (** [tagger.Tag()] *)
  Tagger_Tag : W -> W * string;
  (** The order in which the goroutines of [optimizationInput] finish when
      they are started in this state; the scheduler and the network decide
      it. *)
  Finish : W -> FinishOrder;
}.

(** The optimization methods themselves (the other files of the package). *)
Class OptimizerOps (DM Devices : Type) `{DeviceManagerOps DM Devices} := {
  (** [method.Optimize(knapsack, orders)]: the knapsack after the call and
      the error, if any. *)
  Optimize : OptimizationMethod -> Knapsack.t DM -> list MarketOrder ->
             Knapsack.t DM * option error;
}.

(** Calls that change the world and can fail. *)
Definition Eff (W A : Type) : Type := W -> W * (error + A).

Definition ret {W A} (a : A) : Eff W A := fun w => (w, inr a).
Definition throw {W A} (err : error) : Eff W A := fun w => (w, inl err).
Definition bind {W A B} (c : Eff W A) (k : A -> Eff W B) : Eff W B :=
  fun w =>
    match c w with
    | (w', inl err) => (w', inl err)
    | (w', inr a) => k a w'
    end.
(** [if err != nil { return fmt.Errorf(prefix + "%v", err) }] *)
Definition wrap {W A} (prefix : string) (c : Eff W A) : Eff W A :=
  fun w =>
    match c w with
    | (w', inl err) => (w', inl (prefix +:+ err))
    | (w', inr a) => (w', inr a)
    end.
(** A call that returns only an error. *)
Definition check {W} (c : W -> W * option error) : Eff W unit :=
  fun w =>
    match c w with
    | (w', Some err) => (w', inl err)
    | (w', None) => (w', inr tt)
    end.
(** A result computed without a call. *)
Definition lift {W A} (r : error + A) : Eff W A := fun w => (w, r).

Declare Scope eff_scope.
Delimit Scope eff_scope with eff.
Notation "x <- c ;; k" := (bind c (fun x => k))
  (at level 100, c at next level, right associativity) : eff_scope.
Notation "c ;;; k" := (bind c (fun _ => k))
  (at level 100, right associativity) : eff_scope.

Fixpoint mapEff {W A B} (f : A -> Eff W B) (l : list A) : Eff W (list B) :=
  match l with
  | [] => ret []
  | a :: rest => (b <- f a;; bs <- mapEff f rest;; ret (b :: bs))%eff
  end.

(** An [errgroup] of three goroutines that finish in the order [g1],
    [g2], [g3]: every one of them runs, and [Wait] returns the first error,
    or what the three have fetched. *)
Definition errgroup3 {W A B C} (g1 : Eff W A) (g2 : Eff W B) (g3 : Eff W C)
    : Eff W (A * B * C) :=
  fun w =>
    let '(w, r1) := g1 w in
    let '(w, r2) := g2 w in
    let '(w, r3) := g3 w in
    (w, match r1, r2, r3 with
        | inl err, _, _ => inl err
        | inr _, inl err, _ => inl err
        | inr _, inr _, inl err => inl err
        | inr a, inr b, inr c => inr (a, b, c)
        end).

Inductive Strategy := Replacement | Appending.

(** What a pass through [execute] ends in, when it does not fail: it
    returns nil, or it calls [execute] again. *)
Inductive PassEnd := Done | Restart.

Section Engine.
Context `{OptimizerOps DM Devices} `{!HardwareOps Devices}
        `{!WorkerOps W Devices} `{!MapRange}.

Variable m : workerEngine.

(** The three goroutines of [workerEngine.optimizationInput]. *)
Definition pullOrders : Eff W (list MarketOrder) :=
  (orders <- wrap "failed to pull market orders: " ActiveOrders;;
   if Nat.eqb (length orders) 0
   then throw "not enough orders to perform optimization"
   else ret orders)%eff.

Definition pullDevices : Eff W Devices :=
  wrap "failed to pull worker devices: " Worker_Devices.

Definition pullPlans : Eff W (gmap string AskPlan.t) :=
  wrap "failed to pull worker plans: " Worker_AskPlans.

(** [workerEngine.optimizationInput]. The three fetches run concurrently:
    all of them are made, one call at a time in the order in which they
    finish, and the error that comes first is the error of the group. The
    context that the first error cancels is not modelled, as no call here
    takes a context. *)
Definition fetchOptimizationInput : Eff W (optimizationInput Devices) :=
  fun w =>
    let input orders devices plans :=
      ret {| Orders := orders; Devices_ := devices; Plans := plans |} in
    match Finish w with
    | OrdersDevicesPlans =>
        bind (errgroup3 pullOrders pullDevices pullPlans)
             (fun '(orders, devices, plans) => input orders devices plans) w
    | OrdersPlansDevices =>
        bind (errgroup3 pullOrders pullPlans pullDevices)
             (fun '(orders, plans, devices) => input orders devices plans) w
    | DevicesOrdersPlans =>
        bind (errgroup3 pullDevices pullOrders pullPlans)
             (fun '(devices, orders, plans) => input orders devices plans) w
    | DevicesPlansOrders =>
        bind (errgroup3 pullDevices pullPlans pullOrders)
             (fun '(devices, plans, orders) => input orders devices plans) w
    | PlansOrdersDevices =>
        bind (errgroup3 pullPlans pullOrders pullDevices)
             (fun '(plans, orders, devices) => input orders devices plans) w
    | PlansDevicesOrders =>
        bind (errgroup3 pullPlans pullDevices pullOrders)
             (fun '(plans, devices, orders) => input orders devices plans) w
    end.

(** The ids [tryRemoveUnsoldPlans] collects. *)
Definition unsoldVictims (now : Z) (plans : gmap string AskPlan.t) : list string :=
  foldl
    (fun victims '(id, plan) =>
       if StaleThreshold (cfg m) <=? AskPlan.UnsoldDuration now plan
       then victims ++ [id] else victims)
    [] (range plans).

Definition tryRemoveUnsoldPlans (plans : gmap string AskPlan.t) : Eff W (list string) :=
  fun w =>
    let victims := unsoldVictims (Now w) plans in
    if Nat.eqb (length victims) 0 then (w, inr victims)
    else
      (wrap "failed to remove some unsold plans: " (check (RemoveAskPlans victims));;;
       ret victims)%eff w.

(** [ordersForPlans]; the fetches run concurrently in the source. *)
Definition ordersForPlans (plans : gmap string AskPlan.t) : Eff W (list MarketOrder) :=
  mapEff
    (fun '(id, plan) =>
       fun w =>
         match GetOrderInfo (GetOrderID plan) w with
         | (w', inl err) =>
             (w', inl ("failed to get order `" +:+ orderKey plan +:+ "` for `"
                         +:+ id +:+ "`: " +:+ err))
         | (w', inr order) =>
             (w', inr {| GetOrder := order; CreatedTS := Now w' |})
         end)
    (range plans).

Definition optimize (IsAllowed : Address -> bool) (devices freeDevices : Devices)
    (orders : list MarketOrder) : error + Knapsack.t DM :=
  match newDeviceManager devices freeDevices with
  | inl err => inl ("failed to construct device manager: " +:+ err)
  | inr deviceManager =>
      let matchedOrders := matchingOrders IsAllowed m deviceManager devices orders in
      if Nat.eqb (length matchedOrders) 0
      then inr (Knapsack.NewKnapsack deviceManager)
      else
        let knapsack := Knapsack.NewKnapsack deviceManager in
        match Optimize (Model (Optimization (cfg m)) orders matchedOrders)
                       knapsack matchedOrders with
        | (_, Some err) => inl err
        | (knapsack, None) => inr knapsack
        end
  end.

(** [swingTime]: the sign of (virtual price − current price) − threshold
    is not negative. *)
Definition swingTime (input : optimizationInput Devices)
    (virtualKnapsack : Knapsack.t DM) : bool :=
  let priceThreshold := PriceThreshold (cfg m) in
  let priceDiff := Knapsack.Price virtualKnapsack - optimizationInput_Price input in
  0 <=? Z.sgn (priceDiff - priceThreshold).

Definition strategy (input : optimizationInput Devices)
    (virtualKnapsack : Knapsack.t DM) : Strategy :=
  if swingTime input virtualKnapsack then Replacement else Appending.

(** The choice of the winners, lines 245-269 of engine.go. *)
Definition selectWinners (input : optimizationInput Devices)
    (naturalKnapsack virtualKnapsack : Knapsack.t DM) : Eff W (list AskPlan.t) :=
  if swingTime input virtualKnapsack then
    let '(create, remove, ignore) :=
      splitPlans (Plans input) (Knapsack.Plans virtualKnapsack) in
    let victims := foldl (fun victims plan => victims ++ [AskPlan.ID plan]) [] remove in
    (check (RemoveAskPlans victims);;; ret create)%eff
  else ret (Knapsack.Plans naturalKnapsack).

(** One turn of the loop over the winners. A plan the worker refuses is
    logged and skipped. *)
Definition createPlan (plan : AskPlan.t) : Eff W unit :=
  fun w =>
    let (w, tag) := Tagger_Tag w in
    let plan :=
      {| AskPlan.ID := AskPlan.ID plan;
         AskPlan.OrderID := None;
         AskPlan.Price := AskPlan.Price plan;
         AskPlan.Duration := AskPlan.Duration plan;
         AskPlan.Resources := AskPlan.Resources plan;
         AskPlan.Identity := cfgIdentity (cfg m);
         AskPlan.Tag := tag;
         AskPlan.CreateTime := AskPlan.CreateTime plan |} in
    let (w, _) := CreateAskPlan plan w in
    (w, inr tt).

(** [execute] from the dry-run test on. *)
Definition manage (input : optimizationInput Devices)
    (naturalKnapsack virtualKnapsack : Knapsack.t DM) : Eff W unit :=
  if DryRun (cfg m) then
    throw "further worker management has been interrupted: dry-run mode is active"
  else
    (winners <- selectWinners input naturalKnapsack virtualKnapsack;;
     if Nat.eqb (length winners) 0 then throw "no plans found"
     else (_ <- mapEff createPlan winners;; ret tt))%eff.

(** [execute] after the removal of the unsold plans. The two
    optimizations run concurrently in the source. *)
Definition optimizeAndManage (input : optimizationInput Devices) : Eff W unit :=
  (let victimPlans := VictimPlans input in
   naturalFreeDevices <- lift (FreeDevices input);;
   virtualFreeDevices <- lift (VirtualFreeDevices input);;
   virtualFreeOrders <-
     wrap "failed to collect orders for victim plans: " (ordersForPlans victimPlans);;
   let extOrders := Orders input ++ virtualFreeOrders in
   naturalKnapsack <-
     (fun w => lift (optimize (Blacklist_IsAllowed w) (Devices_ input)
                       naturalFreeDevices (Orders input)) w);;
   virtualKnapsack <-
     (fun w => lift (optimize (Blacklist_IsAllowed w) (Devices_ input)
                       virtualFreeDevices extOrders) w);;
   manage input naturalKnapsack virtualKnapsack)%eff.

(** The start of [execute]: the maintenance gate, the blacklist and the
    input. *)
Definition prelude : Eff W (optimizationInput Devices) :=
  (maintenance <- wrap "failed to get maintenance: " NextMaintenance;;
   _ <- (fun w => if 0 <=? Now w - maintenance
                  then throw "worker is on the maintenance" w else ret tt w);;
   _ <- wrap "failed to update blacklist: " (check Blacklist_Update);;
   fetchOptimizationInput)%eff.

(** One pass through [execute], up to its return or its call of itself. *)
Definition execute_pass : Eff W PassEnd :=
  (input <- prelude;;
   removedPlans <- tryRemoveUnsoldPlans (Plans input);;
   if negb (Nat.eqb (length removedPlans) 0) then ret Restart
   else (_ <- optimizeAndManage input;; ret Done))%eff.

(** [execute]. It calls itself after a removal of unsold plans, and
    nothing bounds how often: [fuel] is the number of passes allowed, and
    [None] means that they did not suffice. *)
Fixpoint execute (fuel : nat) (w : W) : option (W * option error) :=
  match fuel with
  | O => None
  | S fuel =>
      match execute_pass w with
      | (w', inl err) => Some (w', Some err)
      | (w', inr Done) => Some (w', None)
      | (w', inr Restart) => execute fuel w'
      end
  end.

(** How often [execute] has called itself when it returns. *)
Fixpoint execute_restarts (fuel : nat) (w : W) : option nat :=
  match fuel with
  | O => None
  | S fuel =>
      match execute_pass w with
      | (w', inr Restart) => S <$> execute_restarts fuel w'
      | _ => Some O
      end
  end.
End Engine.

(** ** The knapsack in memory

    A [*Knapsack] points to a struct with a [*DeviceManager] and a slice of
    [*sonm.AskPlan]. The objects live in a heap; a slice is a window on a
    backing array. This is the level at which [Clone] can be told from a
    copy of the pointer. *)

Module Mem.
Section Mem.
Context `{DeviceManagerOps DM Devices}.

(** The spare capacity [append] takes when it has to move a slice of the
    given length; the Go runtime chooses it. *)
Variable spare : nat -> nat.

Definition loc : Type := positive.

Inductive slice :=
  | NilSlice
  | Slice (array : loc) (len cap : nat).

Record Knapsack := {
  manager : loc;
  plans : slice;
}.

Record heap := {
  askPlans : gmap loc AskPlan.t;           (* the plans pointed to *)
  arrays : gmap loc (list (option loc));   (* backing arrays; a cell is a pointer or nil *)
  managers : gmap loc DM;
  knapsacks : gmap loc Knapsack;
}.

Definition with_askPlans (f : gmap loc AskPlan.t -> gmap loc AskPlan.t) (h : heap) :=
  {| askPlans := f (askPlans h); arrays := arrays h;
     managers := managers h; knapsacks := knapsacks h |}.
Definition with_arrays
    (f : gmap loc (list (option loc)) -> gmap loc (list (option loc))) (h : heap) :=
  {| askPlans := askPlans h; arrays := f (arrays h);
     managers := managers h; knapsacks := knapsacks h |}.
Definition with_managers (f : gmap loc DM -> gmap loc DM) (h : heap) :=
  {| askPlans := askPlans h; arrays := arrays h;
     managers := f (managers h); knapsacks := knapsacks h |}.
Definition with_knapsacks (f : gmap loc Knapsack -> gmap loc Knapsack) (h : heap) :=
  {| askPlans := askPlans h; arrays := arrays h;
     managers := managers h; knapsacks := f (knapsacks h) |}.

(** A location that is not in use. *)
Definition alloc {A} (objects : gmap loc A) : loc := fresh (dom objects).

Definition slice_len (s : slice) : nat :=
  match s with NilSlice => O | Slice _ len _ => len end.

(** The elements of a slice. *)
Definition cells (h : heap) (s : slice) : list (option loc) :=
  match s with
  | NilSlice => []
  | Slice a len _ => take len (default [] (arrays h !! a))
  end.

(** [append(s, p)]: in place when the capacity allows, otherwise into a
    new array. *)
Definition append (s : slice) (p : loc) (h : heap) : heap * slice :=
  let moved :=
    let old := cells h s in
    let n := length old in
    let a := alloc (arrays h) in
    (with_arrays (insert a (old ++ Some p :: replicate (spare n) None)) h,
     Slice a (S n) (S n + spare n)) in
  match s with
  | NilSlice => moved
  | Slice a len cap =>
      if decide (len < cap)%nat
      then (with_arrays (alter (fun arr => <[len := Some p]> arr) a) h,
            Slice a (S len) cap)
      else moved
  end.

(** [NewKnapsack(deviceManager)] *)
Definition NewKnapsack (deviceManager : loc) (h : heap) : heap * loc :=
  let k := alloc (knapsacks h) in
  (with_knapsacks (insert k {| manager := deviceManager; plans := NilSlice |}) h, k).

(** Modelled from the spec: DeviceManager.Clone is declared outside
    engine.go; it "produces an independent manager sharing only immutable
    inputs": a new object with the state of the old one. *)
Definition DeviceManager_Clone (d : loc) (h : heap) : option (heap * loc) :=
  dm ← managers h !! d;
  let d' := alloc (managers h) in
  Some (with_managers (insert d' dm) h, d').

(** [Clone]: [make] gives an array of the length of the plans, [copy]
    fills it with the same pointers. [None] is a nil dereference. *)
Definition Clone (k : loc) (h : heap) : option (heap * loc) :=
  m ← knapsacks h !! k;
  let n := slice_len (plans m) in
  let a := alloc (arrays h) in
  let h := with_arrays (insert a (resize n None (cells h (plans m)))) h in
  '(h, d) ← DeviceManager_Clone (manager m) h;
  let c := alloc (knapsacks h) in
  Some (with_knapsacks (insert c {| manager := d; plans := Slice a n n |}) h, c).

(** [Put]: the new plan is a new object, and the slice of the knapsack
    is replaced by the result of [append]. *)
Definition Put (order : Order.t) (k : loc) (h : heap) : option (heap * option error) :=
  m ← knapsacks h !! k;
  dm ← managers h !! manager m;
  match Consume (Order.Benchmarks order) (Order.Netflags order) dm with
  | (dm, inl err) => Some (with_managers (insert (manager m) dm) h, Some err)
  | (dm, inr resources) =>
      let h := with_managers (insert (manager m) dm) h in
      let p := alloc (askPlans h) in
      let h := with_askPlans (insert p (Knapsack.planFor order resources)) h in
      let (h, s) := append (plans m) p h in
      Some (with_knapsacks (insert k {| manager := manager m; plans := s |}) h, None)
  end.

(** [Plans]: the slice itself, that is, the pointers. *)
Definition Plans (k : loc) (h : heap) : option (list (option loc)) :=
  m ← knapsacks h !! k; Some (cells h (plans m)).

(** The assignments [execute] makes to a winner before it submits it:
    [plan.OrderID = nil], [plan.Identity = identity], [plan.Tag = tag]. *)
Definition prepareWinner (identity : Z) (tag : string) (p : loc) (h : heap) : heap :=
  with_askPlans
    (alter
       (fun plan =>
          {| AskPlan.ID := AskPlan.ID plan;
             AskPlan.OrderID := None;
             AskPlan.Price := AskPlan.Price plan;
             AskPlan.Duration := AskPlan.Duration plan;
             AskPlan.Resources := AskPlan.Resources plan;
             AskPlan.Identity := identity;
             AskPlan.Tag := tag;
             AskPlan.CreateTime := AskPlan.CreateTime plan |}) p) h.

(** [Put] for each of the orders in turn, whatever the outcome of each. *)
Fixpoint PutAll (orders : list Order.t) (k : loc) (h : heap) : option heap :=
  match orders with
  | [] => Some h
  | order :: rest => '(h, _) ← Put order k h; PutAll rest k h
  end.

(** [Put] calls on two knapsacks in any order: a step names the order and
    whether it goes to the second knapsack or to the first. *)
Fixpoint PutBoth (steps : list (bool * Order.t)) (k c : loc) (h : heap) : option heap :=
  match steps with
  | [] => Some h
  | (second, order) :: rest =>
      '(h, _) ← Put order (if second then c else k) h; PutBoth rest k c h
  end.

(** What a knapsack is, seen through its pointer: the state of its
    manager and its plans, one after the other. [None] when a pointer
    leads nowhere. *)
Definition deref (h : heap) (cell : option loc) : option AskPlan.t :=
  p ← cell; askPlans h !! p.

Definition read (k : loc) (h : heap) : option (Knapsack.t DM) :=
  m ← knapsacks h !! k;
  dm ← managers h !! manager m;
  ps ← mapM (deref h) (cells h (plans m));
  Some {| Knapsack.manager := dm; Knapsack.plans := ps |}.

(** A knapsack whose pointers fit the heap. *)
Definition slice_ok (h : heap) (s : slice) : Prop :=
  match s with
  | NilSlice => True
  | Slice a len cap =>
      (len <= cap)%nat /\ exists arr, arrays h !! a = Some arr /\ length arr = cap
  end.

Definition knapsack_ok (h : heap) (k : loc) : Prop :=
  exists m, knapsacks h !! k = Some m
    /\ is_Some (managers h !! manager m)
    /\ slice_ok h (plans m)
    /\ Forall (fun cell => is_Some (deref h cell)) (cells h (plans m)).

Definition slice_array (s : slice) : option loc :=
  match s with NilSlice => None | Slice a _ _ => Some a end.

(** Two knapsacks that share neither the manager nor the backing array. *)
Definition apart (h : heap) (k1 k2 : loc) : Prop :=
  k1 <> k2 /\ knapsack_ok h k1 /\ knapsack_ok h k2
  /\ forall m1 m2, knapsacks h !! k1 = Some m1 -> knapsacks h !! k2 = Some m2 ->
       manager m1 <> manager m2
       /\ forall a, slice_array (plans m1) = Some a -> slice_array (plans m2) <> Some a.
(** What of the heap a knapsack [m] looks at is the same in [h] and [h']:
    its manager, its backing array, and the plans that exist in [h]. *)
Definition same_for (h h' : heap) (m : Knapsack) : Prop :=
  managers h' !! manager m = managers h !! manager m
  /\ (forall a, slice_array (plans m) = Some a -> arrays h' !! a = arrays h !! a)
  /\ (forall q, is_Some (askPlans h !! q) -> askPlans h' !! q = askPlans h !! q).
End Mem.
End Mem.

Arguments Mem.heap : clear implicits.

(** ** Notions the statements are written with *)

Section Snapshots.
Context `{HardwareOps Devices}.

(** The resources left when [rs] are taken away one after the other. *)
Fixpoint minus_all (free : Resources) (rs : list Resources) : error + Resources :=
  match rs with
  | [] => inr free
  | r :: rs =>
      match Sub free r with
      | inl err => inl err
      | inr free => minus_all free rs
      end
  end.

(** The devices of the worker limited to what is left of all its
    resources when the resources of the plans [subtracted] are taken
    away. *)
Definition snapshot (devices : Devices) (subtracted : list AskPlan.t)
    : error + Devices :=
  match minus_all (AskPlanResources devices) (AskPlan.Resources <$> subtracted) with
  | inl err => inl ("failed to virtualize resource releasing: " +:+ err)
  | inr free =>
      match LimitTo devices free with
      | inl err => inl ("failed to limit virtual free hardware: " +:+ err)
      | inr limited => inr limited
      end
  end.

(** [add] and [zero] are a sum of resource tuples for [Sub]: taking away
    nothing changes nothing, and taking away a sum is taking away its
    parts in turn. *)
Definition sum_for_Sub (add : Resources -> Resources -> Resources)
    (zero : Resources) : Prop :=
  (forall a, Sub a zero = inr a)
  /\ (forall a b d c,
        Sub a (add b d) = inr c <-> exists c', Sub a b = inr c' /\ Sub c' d = inr c).
End Snapshots.

(** The order ids of the plans of a worker, and of a list of plans. *)
Definition existingOrderIDs (plans : gmap string AskPlan.t) : gset Z :=
  list_to_set (GetOrderID <$> (snd <$> map_to_list plans)).

Definition candidateOrderIDs (candidates : list AskPlan.t) : gset Z :=
  list_to_set (GetOrderID <$> candidates).

(** ** A small worker

    A worker with CPU cores and memory only, a device manager that gives
    out what is free, a method that packs orders in the order they come,
    and a world in which a call to the worker takes one tick of the clock.
    The examples and the instances of the theorems run on it. *)

Module Sample.
#[global] Instance range_map_to_list : MapRange :=
  {| range := fun A m => map_to_list m;
     range_entries := fun A m => reflexivity (map_to_list m) |}.

(** The request of an order: benchmark 0 counts cores, benchmark 1 bytes
    of memory. *)
Definition request (benchmarks : list Z) (netflags : N) : Resources :=
  {| cpu_cores := Z.to_N (nth 0 benchmarks 0); ram_bytes := Z.to_N (nth 1 benchmarks 0);
     storage_bytes := 0; net_in_bps := 0; net_out_bps := 0;
     NetFlags := netflags; gpus := [] |}.

Definition fits (r capacity : Resources) : bool :=
  (cpu_cores r <=? cpu_cores capacity)%N && (ram_bytes r <=? ram_bytes capacity)%N
  && (storage_bytes r <=? storage_bytes capacity)%N
  && (net_in_bps r <=? net_in_bps capacity)%N
  && (net_out_bps r <=? net_out_bps capacity)%N
  && bool_decide (gpus r = []).

Definition minus (a r : Resources) : Resources :=
  {| cpu_cores := cpu_cores a - cpu_cores r; ram_bytes := ram_bytes a - ram_bytes r;
     storage_bytes := storage_bytes a - storage_bytes r;
     net_in_bps := net_in_bps a - net_in_bps r;
     net_out_bps := net_out_bps a - net_out_bps r;
     NetFlags := NetFlags a; gpus := gpus a |}%N.

Definition plus (a b : Resources) : Resources :=
  {| cpu_cores := cpu_cores a + cpu_cores b; ram_bytes := ram_bytes a + ram_bytes b;
     storage_bytes := storage_bytes a + storage_bytes b;
     net_in_bps := net_in_bps a + net_in_bps b;
     net_out_bps := net_out_bps a + net_out_bps b;
     NetFlags := N.lor (NetFlags a) (NetFlags b); gpus := gpus a ++ gpus b |}%N.

Definition nothing : Resources :=
  {| cpu_cores := 0; ram_bytes := 0; storage_bytes := 0; net_in_bps := 0;
     net_out_bps := 0; NetFlags := 0; gpus := [] |}%N.

#[global] Instance hardware : HardwareOps Resources :=
  {| AskPlanResources := fun devices => devices;
     Sub := fun a r => if fits r a then inr (minus a r) else inl "insufficient capacity";
     LimitTo := fun _ free => inr free;
     GetNetFlags := NetFlags;
     ConverseImplication := fun worker order => (N.land order worker =? order)%N |}.

Record DeviceManager := {
  total : Resources;
  free : Resources;
}.

#[global] Instance deviceManager : DeviceManagerOps DeviceManager Resources :=
  {| newDeviceManager := fun devices freeDevices =>
       inr {| total := devices; free := freeDevices |};
     Consume := fun benchmarks netflags dm =>
       let r := request benchmarks netflags in
       if fits r (free dm)
       then ({| total := total dm; free := minus (free dm) r |}, inr r)
       else (dm, inl "insufficient capacity");
     Contains := fun benchmarks netflags dm =>
       fits (request benchmarks netflags) (total dm) |}.

(** Every method puts the orders into the knapsack as they come and
    passes over those that do not fit. *)
#[global] Instance optimizer : OptimizerOps DeviceManager Resources :=
  {| Optimize := fun _ knapsack orders =>
       (foldl (fun k order => fst (Knapsack.Put (GetOrder order) k)) knapsack orders,
        None) |}.

Record World := {
  clock : Z;
  maintenance : Z;
  banned : list Address;
  market : list MarketOrder;     (* the active orders *)
  chain : list MarketOrder;      (* every order there is *)
  devices : Resources;
  askPlans : gmap string AskPlan.t;
}.

Definition tick (plans : gmap string AskPlan.t) (w : World) : World :=
  {| clock := clock w + 1; maintenance := maintenance w; banned := banned w;
     market := market w; chain := chain w; devices := devices w;
     askPlans := plans |}.

Definition stored (id : string) (plan : AskPlan.t) (now : Z) : AskPlan.t :=
  {| AskPlan.ID := id; AskPlan.OrderID := AskPlan.OrderID plan;
     AskPlan.Price := AskPlan.Price plan; AskPlan.Duration := AskPlan.Duration plan;
     AskPlan.Resources := AskPlan.Resources plan;
     AskPlan.Identity := AskPlan.Identity plan; AskPlan.Tag := AskPlan.Tag plan;
     AskPlan.CreateTime := now |}.

#[global] Instance worker : WorkerOps World Resources :=
  {| NextMaintenance := fun w => (w, inr (maintenance w));
     Now := clock;
     Blacklist_Update := fun w => (w, None);
     Blacklist_IsAllowed := fun w author => bool_decide (author ∉ banned w);
     ActiveOrders := fun w => (w, inr (market w));
     Worker_Devices := fun w => (w, inr (devices w));
     Worker_AskPlans := fun w => (w, inr (askPlans w));
     RemoveAskPlans := fun ids w =>
       (tick (foldr delete (askPlans w) ids) w, None);
     GetOrderInfo := fun id w =>
       match List.find (fun o => Order.Id (GetOrder o) =? id) (chain w) with
       | Some o => (w, inr (GetOrder o))
       | None => (w, inl "no such order")
       end;
     CreateAskPlan := fun plan w =>
       let id := "plan-" +:+ pretty (size (askPlans w)) in
       (tick (<[id := stored id plan (clock w)]> (askPlans w)) w, inr id);
     Tagger_Tag := fun w => (w, "optimus");
     Finish := fun w => DevicesPlansOrders |}.

Definition GiB : N := 1073741824.

Definition machine (cores gib : N) : Resources :=
  {| cpu_cores := cores; ram_bytes := gib * GiB; storage_bytes := 0;
     net_in_bps := 0; net_out_bps := 0; NetFlags := 0; gpus := [] |}%N.

(** A spot BID for cores and memory at a price. *)
Definition bid (id : Z) (cores gib : N) (price duration : Z) : MarketOrder :=
  {| GetOrder :=
       {| Order.Id := id; Order.AuthorID := 7%N; Order.CounterpartyID := 0%N;
          Order.OrderType := OrderType_BID; Order.Price := price;
          Order.Duration := duration;
          Order.Benchmarks := [Z.of_N cores; Z.of_N (gib * GiB)];
          Order.Netflags := 0%N |};
     CreatedTS := 0 |}.

(** A plan of the worker on an order. *)
Definition plan (id : string) (order : Z) (cores gib : N) (price duration created : Z)
    : AskPlan.t :=
  {| AskPlan.ID := id; AskPlan.OrderID := Some order; AskPlan.Price := price;
     AskPlan.Duration := duration; AskPlan.Resources := machine cores gib;
     AskPlan.Identity := 0; AskPlan.Tag := ""; AskPlan.CreateTime := created |}.

Definition config (dryRun : bool) (priceThreshold staleThreshold : Z) : workerConfig :=
  {| DryRun := dryRun; PriceThreshold := priceThreshold;
     StaleThreshold := staleThreshold; PreludeTimeout := 30 * 1000000000;
     cfgOrderPolicy := PolicySpotOnly; cfgIdentity := 1;
     Optimization := {| Model := defaultOptimizationMethodFactory_Create |} |}.

Definition engine (dryRun : bool) (priceThreshold staleThreshold : Z) : workerEngine :=
  {| cfg := config dryRun priceThreshold staleThreshold; addr := 1%N; masterAddr := 2%N |}.

(** Spot replacement: 8 cores and 16 GiB, a spot plan on half of it at
    10, a BID for all of it at 25. *)
Definition spotWorld : World :=
  {| clock := 100; maintenance := 1000000; banned := [];
     market := [bid 1 8 16 25 0];
     chain := [bid 1 8 16 25 0; bid 2 4 8 10 0];
     devices := machine 8 16;
     askPlans := {[ "a" := plan "a" 2 4 8 10 0 100 ]} |}.

(** The knapsacks of the two tracks on [spotWorld]: nothing fits what is
    free, and the BID at 25 fits once the spot plan is out of the way. *)
Definition spotNatural : Knapsack.t DeviceManager :=
  {| Knapsack.manager := {| total := machine 8 16; free := machine 4 8 |};
     Knapsack.plans := [] |}.

Definition spotVirtual : Knapsack.t DeviceManager :=
  {| Knapsack.manager := {| total := machine 8 16; free := machine 0 0 |};
     Knapsack.plans :=
       [ {| AskPlan.ID := ""; AskPlan.OrderID := Some 1; AskPlan.Price := 25;
            AskPlan.Duration := 0; AskPlan.Resources := machine 8 16;
            AskPlan.Identity := 0; AskPlan.Tag := ""; AskPlan.CreateTime := 0 |} ] |}.

Definition spotInput : optimizationInput Resources :=
  {| Orders := market spotWorld; Devices_ := devices spotWorld;
     Plans := askPlans spotWorld |}.

(** Two plans without a deal, created one tick apart. *)
Definition agingWorld : World :=
  {| clock := 10; maintenance := 1000000; banned := [];
     market := [bid 1 4 8 7 0];
     chain := [bid 1 4 8 7 0; bid 8 2 4 5 0; bid 9 2 4 5 0];
     devices := machine 8 16;
     askPlans := {[ "a" := plan "a" 8 2 4 5 0 0; "b" := plan "b" 9 2 4 5 0 1 ]} |}.
(** A heap with one knapsack that holds one plan. [append] takes as much
    spare room as the slice is long. *)
Definition spare (n : nat) : nat := n.

Definition heap0 : Mem.heap DeviceManager :=
  {| Mem.askPlans := ∅; Mem.arrays := ∅;
     Mem.managers := {[ 1%positive := {| total := machine 8 16; free := machine 8 16 |} ]};
     Mem.knapsacks := ∅ |}.

Definition packed : option (Mem.heap DeviceManager * Mem.loc) :=
  let (h, k) := Mem.NewKnapsack 1%positive heap0 in
  '(h, _) ← Mem.Put spare (GetOrder (bid 1 4 8 7 0)) k h;
  Some (h, k).

Definition packedHeap : Mem.heap DeviceManager :=
  match packed with Some (h, _) => h | None => heap0 end.

Definition packedKnapsack : Mem.loc :=
  match packed with Some (_, k) => k | None => 1%positive end.

Definition agingInput : optimizationInput Resources :=
  {| Orders := market agingWorld; Devices_ := devices agingWorld;
     Plans := askPlans agingWorld |}.
End Sample.

(** The six conditions of the filter chain on an order. *)
Definition acceptable `{DeviceManagerOps DM Devices} `{!HardwareOps Devices}
    (IsAllowed : Address -> bool) (m : workerEngine) (deviceManager : DM)
    (devices : Devices) (order : Order.t) : Prop :=
  Order.OrderType order = OrderType_BID
  /\ (cfgOrderPolicy (cfg m) = PolicySpotOnly /\ Order.Duration order = 0)
  /\ IsAllowed (Order.AuthorID order) = true
  /\ ConverseImplication (GetNetFlags devices) (Order.Netflags order) = true
  /\ (Order.CounterpartyID order = 0%N
      \/ Order.CounterpartyID order = addr m
      \/ Order.CounterpartyID order = masterAddr m)
  /\ Contains (Order.Benchmarks order) (Order.Netflags order) deviceManager = true.

(** ** Choosing a method by its tag (engine.go) *)

(** The factories [optimizationFactory] can return, each with its
    configuration still to be read. *)
Inductive ModelFactory :=
  | BatchModelFactory
  | GreedyLinearRegressionModelFactory
  | GeneticModelFactory
  | BranchBoundModelFactory.

(** [optimizationFactory]; [None] is the nil of the default case. *)
Definition optimizationFactory (ty : string) : option ModelFactory :=
  if decide (ty = "batch") then Some BatchModelFactory
  else if decide (ty = "greedy") then Some GreedyLinearRegressionModelFactory
  else if decide (ty = "genetic") then Some GeneticModelFactory
  else if decide (ty = "branch_bound") then Some BranchBoundModelFactory
  else None.

Section UnmarshalYAML.
(** What a factory holds once its configuration is read. *)
Variable Config : Type.
(** [typeofInterface(unmarshal)]: the type tag of the document. *)
Variable typeofInterface : error + string.
(** [unmarshal(factory.Config())]: the configuration of the factory as the
    document gives it. *)
Variable unmarshal : ModelFactory -> error + Config.

(** [optimizationMethodFactory.UnmarshalYAML]: the factory the receiver
    holds after the call, and the error. *)
Definition UnmarshalYAML (m : option (ModelFactory * Config))
    : option (ModelFactory * Config) * option error :=
  match typeofInterface with
  | inl err => (m, Some err)
  | inr ty =>
      match optimizationFactory ty with
      | None => (m, Some ("unknown optimization model: " +:+ ty))
      | Some factory =>
          match unmarshal factory with
          | inl err => (m, Some err)
          | inr config => (Some (factory, config), None)
          end
      end
  end.
End UnmarshalYAML.

(** [Put] for each order in turn, passing over the orders that are
    rejected. *)
Definition PutEach `{DeviceManagerOps DM Devices} (orders : list Order.t)
    (k : Knapsack.t DM) : Knapsack.t DM :=
  foldl (fun k order => (Knapsack.Put order k).1) k orders.


(** ** Random helpers of the genetic engine (gago/util_random.go) *)

(** A [*rand.Rand] of math/rand: the state of the generator and the two
    methods that are called on it. [Intn(n)] is in [[0, n)] for a positive
    [n], and [Int63()] is a non-negative 63-bit number. *)
Class RandOps (R : Type) := {
  Intn : Z -> R -> Z * R;
  Int63 : R -> Z * R;
  Intn_range : forall n r, 0 < n -> 0 <= (Intn n r).1 < n;
  Int63_range : forall r, 0 <= (Int63 r).1 < 2 ^ 63;
}.

Section Random.
Context `{RandOps R}.

(** One turn of the second loop of [randomInts]. *)
Definition randomInts_step (k min : Z) (state : list Z * R) (i : Z) : list Z * R :=
  let '(ints, rng) := state in
  let '(j, rng) := Intn (to_int64 (i + 1)) rng in
  if j <? k then (<[Z.to_nat j := to_int64 (i + min)]> ints, rng) else (ints, rng).

(** [randomInts]. [None] is the panic of [make] on a negative length. *)
Definition randomInts (k min max : Z) (rng : R) : option (list Z * R) :=
  if k <? 0 then None
  else
    let ints := (fun i => to_int64 (i + min)) <$> seqZ 0 k in
    Some (foldl (randomInts_step k min) (ints, rng)
            (seqZ k (to_int64 (max - min) - k))).

(** [ints[idx]]; [None] is the panic of an index out of range. *)
Definition index (ints : list Z) (idx : Z) : option Z :=
  if idx <? 0 then None else ints !! Z.to_nat idx.

(** [sampleInts]: the sample and the indexes, or the error; [None] is a
    panic. *)
Definition sampleInts (ints : list Z) (k : Z) (rng : R)
    : option ((error + list Z * list Z) * R) :=
  if Z.of_nat (length ints) <? k then
    Some (inl ("Cannot sample " +:+ pretty k +:+ " elements from array of length "
               +:+ pretty (Z.of_nat (length ints))), rng)
  else
    '(idxs, rng) ← randomInts k 0 (Z.of_nat (length ints)) rng;
    sample ← mapM (index ints) idxs;
    Some (inr (sample, idxs), rng).

Definition letterBytes : string :=
  "abcdefghijklmnopqrstuvwxyzABCDEFGHIJKLMNOPQRSTUVWXYZ".
Definition letterIdxBits : Z := 6.
Definition letterIdxMask : Z := Z.shiftl 1 letterIdxBits - 1.
Definition letterIdxMax : Z := 63 / letterIdxBits.

(** [letterBytes[idx]] *)
Definition letter (idx : Z) : Ascii.ascii :=
  default Ascii.zero (String.list_ascii_of_string letterBytes !! Z.to_nat idx).

(** The loop of [randString]: [fuel] turns are allowed, and [None] means
    that the loop was still running after them. *)
Fixpoint randString_loop (fuel : nat) (b : list Ascii.ascii) (i cache remain : Z)
    (rng : R) : option (list Ascii.ascii * R) :=
  match fuel with
  | O => None
  | S fuel =>
      if i <? 0 then Some (b, rng)
      else
        let '(cache, remain, rng) :=
          if remain =? 0
          then let '(cache, rng) := Int63 rng in (cache, letterIdxMax, rng)
          else (cache, remain, rng) in
        let idx := Z.land cache letterIdxMask in
        let '(b, i) :=
          if idx <? Z.of_nat (String.length letterBytes)
          then (<[Z.to_nat i := letter idx]> b, i - 1)
          else (b, i) in
        randString_loop fuel b i (Z.shiftr cache letterIdxBits) (remain - 1) rng
  end.

(** [randString]. The outer [None] is a loop that outlasts the fuel, the
    inner one the panic of [make] on a negative length. *)
Definition randString (fuel : nat) (n : Z) (rng : R)
    : option (option (string * R)) :=
  if n <? 0 then Some None
  else
    let b := replicate (Z.to_nat n) Ascii.zero in
    let '(cache, rng) := Int63 rng in
    match randString_loop fuel b (n - 1) cache letterIdxMax rng with
    | None => None
    | Some (b, rng) => Some (Some (String.string_of_list_ascii b, rng))
    end.
End Random.

(** ** The command line (cmd/cli/commands/common.go)

    The flags and the configuration are package variables in the source;
    here they are arguments. *)

Module Cli.
Definition defaultNodeAddr : string := "localhost:15030".

(** [isSimpleFormat]; [OutputModeJSON] is a constant of package config. *)
Definition isSimpleFormat (OutputModeJSON outputModeFlag cfgOutputFormat : string)
    : bool :=
  if bool_decide (outputModeFlag = "") && bool_decide (cfgOutputFormat = "") then true
  else if bool_decide (outputModeFlag = OutputModeJSON)
          || bool_decide (cfgOutputFormat = OutputModeJSON) then false
  else true.

(** [nodeAddress] *)
Definition nodeAddress (nodeAddressFlag cfgNodeAddr : string) : string :=
  let p := nodeAddressFlag in
  if decide (p = "") then
    let p := cfgNodeAddr in
    if decide (p = "") then defaultNodeAddr else p
  else p.

(** [keystorePath]; the default directory and the expansion of the home
    directory come from packages util and homedir. *)
Definition keystorePath (GetDefaultKeyStoreDir : error + string)
    (Expand : string -> error + string) (keystoreFlag cfgKeystore : string)
    : error + string :=
  let p := keystoreFlag in
  let located :=
    if decide (p = "") then
      let p := cfgKeystore in
      if decide (p = "") then
        match GetDefaultKeyStoreDir with
        | inl err => inl ("cannot obtain default keystore dir: " +:+ err)
        | inr p => inr p
        end
      else inr p
    else inr p in
  match located with
  | inl err => inl err
  | inr p => Expand p
  end.
End Cli.

(** A generator for the examples: a linear congruential one. *)
Module SampleRand.
Definition next (r : Z) : Z := (r * 6364136223846793005 + 1442695040888963407) mod 2 ^ 63.

#[global] Instance lcg : RandOps Z.
Proof.
  refine {| Intn := fun n r => (r mod n, next r);
            Int63 := fun r => (r mod 2 ^ 63, next r) |}.
  - intros n r Hn. simpl. by apply Z.mod_pos_bound.
  - intros r. simpl. by apply Z.mod_pos_bound.
Defined.

(** A generator whose numbers all begin with six zero bits, the index of
    the letter a. *)
Definition steady : RandOps Z.
Proof.
  refine {| Intn := fun n r => (r mod n, r + 1);
            Int63 := fun r => (64 * (r mod 2 ^ 57), r + 1) |}.
  - intros n r Hn. simpl. by apply Z.mod_pos_bound.
  - intros r. simpl. pose proof (Z.mod_pos_bound r (2 ^ 57) ltac:(lia)). lia.
Defined.

(** A generator that gives the largest number every time. *)
Definition stuck : RandOps unit.
Proof.
  refine {| Intn := fun n r => (0, r);
            Int63 := fun r => (2 ^ 63 - 1, r) |}.
  - intros n r Hn. simpl. lia.
  - intros r. simpl. lia.
Defined.
End SampleRand.

(** * Properties *)

(** ** The default factory *)

(** C6. The default factory returns the branch-and-bound model for fewer
    than 128 matched orders, and otherwise the batch model of exactly the
    greedy regression model, the genetic model on packed orders and the
    genetic model on decision orders; 127 matched orders give the first,
    128 the second. *)
Theorem Create_dispatch (orders matchedOrders : list MarketOrder) :
  ((length matchedOrders < 128)%nat ->
     defaultOptimizationMethodFactory_Create orders matchedOrders = BranchBoundModel)
  /\ ((128 <= length matchedOrders)%nat ->
        defaultOptimizationMethodFactory_Create orders matchedOrders =
        BatchModel
          [ GreedyLinearRegressionModel orders {| MaxIterations := 10000000 |} 128;
            GeneticModel NewPackedOrdersNewGenome 256 128 (5 * Minute);
            GeneticModel NewDecisionOrdersNewGenome 512 64 (5 * Minute) ])
  /\ (length matchedOrders = 127%nat ->
        defaultOptimizationMethodFactory_Create orders matchedOrders = BranchBoundModel)
  /\ (length matchedOrders = 128%nat ->
        exists methods,
          defaultOptimizationMethodFactory_Create orders matchedOrders = BatchModel methods
          /\ length methods = 3%nat).
Proof.
  unfold defaultOptimizationMethodFactory_Create.
  repeat split.
  - intros Hlt. destruct (Z.ltb_spec (Z.of_nat (length matchedOrders)) 128); [done | lia].
  - intros Hge. destruct (Z.ltb_spec (Z.of_nat (length matchedOrders)) 128); [lia | done].
  - intros ->. done.
  - intros ->. eexists. split; [done | done].
Qed.

Lemma Create_dispatch_witness :
  defaultOptimizationMethodFactory_Create [] (replicate 127 (Sample.bid 1 1 1 1 0))
  = BranchBoundModel
  /\ exists methods,
       defaultOptimizationMethodFactory_Create [] (replicate 128 (Sample.bid 1 1 1 1 0))
       = BatchModel methods /\ length methods = 3%nat.
Proof.
  split.
  - apply (proj1 (proj2 (proj2 (Create_dispatch [] (replicate 127 (Sample.bid 1 1 1 1 0)))))).
    reflexivity.
  - apply (proj2 (proj2 (proj2 (Create_dispatch [] (replicate 128 (Sample.bid 1 1 1 1 0)))))).
    reflexivity.
Defined.

(** ** The order filter *)

Lemma Filter_true (Filters : list OrderFilter) (order : Order.t) :
  Filter Filters order = true <-> Forall (fun filter => filter order = true) Filters.
Proof.
  induction Filters as [|filter rest IH]; simpl.
  - split; [constructor | done].
  - destruct (filter order) eqn:E.
    + rewrite IH. split; [by constructor | by inversion 1].
    + split; [done | inversion 1; congruence].
Qed.

(** The loop stops at the first filter that rejects: what comes after it
    has no part in the result. *)
Lemma Filter_short_circuit (before after : list OrderFilter) filter order :
  Forall (fun f => f order = true) before ->
  filter order = false ->
  Filter (before ++ filter :: after) order = false
  /\ Filter_calls (before ++ filter :: after) order = S (length before).
Proof.
  induction 1 as [|f before Hf _ IH]; simpl; intros Hrej.
  - by rewrite Hrej.
  - rewrite Hf. destruct (IH Hrej) as [-> ->]. done.
Qed.

Section FilterFacts.
Context `{DeviceManagerOps DM Devices} `{!HardwareOps Devices}.
Variable IsAllowed : Address -> bool.
Variables (m : workerEngine) (deviceManager : DM) (devices : Devices).

Lemma filter_type_true order :
  filter_type order = true <-> Order.OrderType order = OrderType_BID.
Proof. unfold filter_type. by rewrite bool_decide_eq_true. Qed.

Lemma filter_policy_true order :
  filter_policy m order = true <->
  cfgOrderPolicy (cfg m) = PolicySpotOnly /\ Order.Duration order = 0.
Proof.
  unfold filter_policy. destruct (cfgOrderPolicy (cfg m)).
  - rewrite Z.eqb_eq. tauto.
  - split; [done | intros [? _]; done].
Qed.

Lemma filter_counterparty_true order :
  filter_counterparty m order = true <->
  Order.CounterpartyID order = 0%N
  \/ Order.CounterpartyID order = addr m
  \/ Order.CounterpartyID order = masterAddr m.
Proof.
  unfold filter_counterparty.
  rewrite !orb_true_iff, !N.eqb_eq. tauto.
Qed.

(** C3. The filter accepts an order exactly when the six conditions hold:
    it is a BID; the policy is SpotOnly and the duration is 0 (every
    other policy rejects); the blacklist allows the author; the flags of
    the worker imply those of the order; the counterparty is unset, the
    worker or the master; the device manager can hold the benchmarks and
    flags. The conditions are tried in this order and the first one that
    fails ends the chain. *)
Theorem filters_accept (order : Order.t) :
  (Filter (filters IsAllowed m deviceManager devices) order = true <->
     Order.OrderType order = OrderType_BID
     /\ (cfgOrderPolicy (cfg m) = PolicySpotOnly /\ Order.Duration order = 0)
     /\ IsAllowed (Order.AuthorID order) = true
     /\ ConverseImplication (GetNetFlags devices) (Order.Netflags order) = true
     /\ (Order.CounterpartyID order = 0%N
         \/ Order.CounterpartyID order = addr m
         \/ Order.CounterpartyID order = masterAddr m)
     /\ Contains (Order.Benchmarks order) (Order.Netflags order) deviceManager = true)
  /\ Filter_calls (filters IsAllowed m deviceManager devices) order =
     (if negb (bool_decide (Order.OrderType order = OrderType_BID)) then 1%nat
      else if negb (match cfgOrderPolicy (cfg m) with
                    | PolicySpotOnly => Order.Duration order =? 0
                    | PolicyOther _ => false
                    end) then 2%nat
      else if negb (IsAllowed (Order.AuthorID order)) then 3%nat
      else if negb (ConverseImplication (GetNetFlags devices) (Order.Netflags order))
           then 4%nat
      else if negb ((Order.CounterpartyID order =? 0)%N
                    || (Order.CounterpartyID order =? addr m)%N
                    || (Order.CounterpartyID order =? masterAddr m)%N) then 5%nat
      else 6%nat)
  /\ (cfgOrderPolicy (cfg m) <> PolicySpotOnly ->
      Filter (filters IsAllowed m deviceManager devices) order = false).
Proof.
  assert (Hacc : Filter (filters IsAllowed m deviceManager devices) order = true <->
     Order.OrderType order = OrderType_BID
     /\ (cfgOrderPolicy (cfg m) = PolicySpotOnly /\ Order.Duration order = 0)
     /\ IsAllowed (Order.AuthorID order) = true
     /\ ConverseImplication (GetNetFlags devices) (Order.Netflags order) = true
     /\ (Order.CounterpartyID order = 0%N
         \/ Order.CounterpartyID order = addr m
         \/ Order.CounterpartyID order = masterAddr m)
     /\ Contains (Order.Benchmarks order) (Order.Netflags order) deviceManager = true).
  { rewrite Filter_true. unfold filters.
    rewrite !Forall_cons, Forall_nil.
    rewrite filter_type_true, filter_policy_true, filter_counterparty_true.
    unfold filter_blacklist, filter_netflags, filter_devices. tauto. }
  split; [exact Hacc|]. split.
  - unfold filters, Filter_calls, filter_type, filter_policy, filter_blacklist,
      filter_netflags, filter_counterparty, filter_devices.
    destruct (bool_decide _); simpl; [|done].
    destruct (cfgOrderPolicy (cfg m)); simpl; [|done].
    destruct (Order.Duration order =? 0); simpl; [|done].
    destruct (IsAllowed _); simpl; [|done].
    destruct (ConverseImplication _ _); simpl; [|done].
    destruct (_ || _ || _); simpl; [|done].
    by destruct (Contains _ _ _).
  - intros Hpolicy.
    apply not_true_is_false. intros E. apply Hacc in E. tauto.
Qed.
End FilterFacts.

(** ** The knapsack *)

Lemma to_int64_id (z : Z) : - 2 ^ 63 <= z < 2 ^ 63 -> to_int64 z = z.
Proof.
  intros Hz. unfold to_int64.
  rewrite Z.mod_small by lia. lia.
Qed.

Lemma nanoseconds_exact (seconds : Z) :
  0 <= seconds <= 9223372036 ->
  to_int64 (1000000000 * to_int64 seconds) = 1000000000 * seconds.
Proof.
  intros Hs. rewrite (to_int64_id seconds) by lia.
  apply to_int64_id. lia.
Qed.

Lemma SumPrice_app (ps qs : list AskPlan.t) :
  SumPrice (ps ++ qs) = SumPrice ps + SumPrice qs.
Proof. induction ps as [|p ps IH]; simpl; [done | rewrite IH; lia]. Qed.

Lemma SumPrice_Permutation (ps qs : list AskPlan.t) :
  ps ≡ₚ qs -> SumPrice ps = SumPrice qs.
Proof. induction 1; simpl; lia. Qed.

Lemma Sample_Consume_atomic :
  Consume_atomic (DM := Sample.DeviceManager) (Devices := Resources).
Proof.
  intros benchmarks netflags dm dm' err. simpl.
  destruct (Sample.fits _ _); [done | by intros [= <- _]].
Qed.

Section KnapsackFacts.
Context `{DeviceManagerOps DM Devices}.

(** A rejected [Put] leaves the plans as they are, and the manager as
    [Consume] left it. *)
Lemma Put_rejected order (k k' : Knapsack.t DM) err :
  Knapsack.Put order k = (k', Some err) ->
  Knapsack.plans k' = Knapsack.plans k
  /\ Consume (Order.Benchmarks order) (Order.Netflags order) (Knapsack.manager k)
     = (Knapsack.manager k', inl err).
Proof.
  unfold Knapsack.Put.
  destruct (Consume _ _ _) as [dm [e|resources]]; intros [= <- <-]; done.
Qed.

(** C2, as amended. A [Put] that fails (the manager does not consume the
    benchmarks and flags of the order) leaves the plans and the manager
    unchanged. A [Put] that succeeds appends exactly one plan: its price
    is the per-second price of the order, its resources are the consumed
    ones with the net flags of the order, and its duration is the
    duration of the order in int64 nanoseconds, 10^9 times the seconds
    modulo 2^64: the duration of the order itself as long as that is at
    most 9223372036 seconds, with 0 kept as spot. *)
Theorem Put_spec (Hatomic : Consume_atomic) (order : Order.t) (k : Knapsack.t DM) :
  match Knapsack.Put order k with
  | (k', Some err) =>
      k' = k
      /\ Consume (Order.Benchmarks order) (Order.Netflags order) (Knapsack.manager k)
         = (Knapsack.manager k, inl err)
  | (k', None) =>
      exists resources plan,
        Consume (Order.Benchmarks order) (Order.Netflags order) (Knapsack.manager k)
        = (Knapsack.manager k', inr resources)
        /\ Knapsack.plans k' = Knapsack.plans k ++ [plan]
        /\ AskPlan.OrderID plan = Some (Order.Id order)
        /\ AskPlan.Price plan = Order.Price order
        /\ AskPlan.Resources plan = set_NetFlags (Order.Netflags order) resources
        /\ AskPlan.Duration plan
           = to_int64 (1000000000 * to_int64 (Order.Duration order))
        /\ (0 <= Order.Duration order <= 9223372036 ->
            AskPlan.Duration plan = 1000000000 * Order.Duration order)
        /\ (Order.Duration order = 0 -> AskPlan.Duration plan = 0)
  end.
Proof.
  unfold Knapsack.Put.
  destruct (Consume _ _ _) as [dm [err|resources]] eqn:E.
  - apply Hatomic in E as E'. subst dm. split; [by destruct k | done].
  - exists resources, (Knapsack.planFor order resources). simpl.
    repeat split; try done.
    + apply nanoseconds_exact.
    + intros ->. done.
Qed.

(** C8, as amended. [PPSf64] is the low 64 bits of the magnitude of the
    sum of the per-second prices, converted to binary64 and multiplied by
    1e-18; it is the sum itself converted and scaled when the sum is
    below 2^64 and not negative. *)
Theorem PPSf64_spec (k : Knapsack.t DM) :
  Knapsack.Price k = foldr Z.add 0 (AskPlan.Price <$> Knapsack.plans k)
  /\ Knapsack.PPSf64 k
     = float64_mul (float64_of_Z (Z.abs (Knapsack.Price k) mod 2 ^ 64)) f1e_18
  /\ (0 <= Knapsack.Price k < 2 ^ 64 ->
      Knapsack.PPSf64 k = float64_mul (float64_of_Z (Knapsack.Price k)) f1e_18).
Proof.
  split; [|split].
  - unfold Knapsack.Price. induction (Knapsack.plans k) as [|p ps IH]; simpl; [done|].
    by rewrite IH.
  - done.
  - intros Hrange. unfold Knapsack.PPSf64, Uint64.
    rewrite Z.abs_eq by lia. by rewrite Z.mod_small by lia.
Qed.
End KnapsackFacts.

Lemma Put_spec_witness :
  match Knapsack.Put (GetOrder (Sample.bid 1 4 8 7 0))
          (Knapsack.NewKnapsack
             {| Sample.total := Sample.machine 8 16; Sample.free := Sample.machine 8 16 |})
  with
  | (k', Some _) => False
  | (k', None) =>
      exists plan, Knapsack.plans k' = [plan]
        /\ AskPlan.Price plan = 7 /\ AskPlan.Duration plan = 0
  end.
Proof.
  pose proof (Put_spec Sample_Consume_atomic (GetOrder (Sample.bid 1 4 8 7 0))
    (Knapsack.NewKnapsack
       {| Sample.total := Sample.machine 8 16; Sample.free := Sample.machine 8 16 |}))
    as Hput.
  destruct (Knapsack.Put _ _) as [k' [err|]].
  - destruct Hput as [_ Hconsume]. vm_compute in Hconsume. discriminate Hconsume.
  - destruct Hput as (resources & plan & _ & Hplans & _ & Hprice & _ & _ & _ & Hspot).
    exists plan. split; [exact Hplans|]. split; [exact Hprice|]. by apply Hspot.
Defined.

(** C2 as it stands fails on the duration: an order of 2^55 seconds fits
    in a [uint64], and its plan has the duration 0 of a spot plan. *)
Lemma Put_duration_counterexample :
  let order := GetOrder (Sample.bid 1 4 8 7 (2 ^ 55)) in
  let k := Knapsack.NewKnapsack
             {| Sample.total := Sample.machine 8 16; Sample.free := Sample.machine 8 16 |} in
  0 <= Order.Duration order < 2 ^ 64
  /\ exists k' plan,
       Knapsack.Put order k = (k', None)
       /\ Knapsack.plans k' = Knapsack.plans k ++ [plan]
       /\ AskPlan.Duration plan = 0
       /\ AskPlan.Duration plan <> 1000000000 * Order.Duration order.
Proof.
  simpl. split; [lia|].
  eexists _, _. split; [vm_compute; reflexivity|].
  split; [reflexivity|]. split; [reflexivity|]. vm_compute. discriminate.
Qed.

Lemma PPSf64_spec_witness :
  let k := fst (Knapsack.Put (GetOrder (Sample.bid 1 4 8 7 0))
             (Knapsack.NewKnapsack
                {| Sample.total := Sample.machine 8 16;
                   Sample.free := Sample.machine 8 16 |})) in
  Knapsack.PPSf64 k = float64_mul (float64_of_Z 7) f1e_18.
Proof.
  simpl. apply PPSf64_spec. vm_compute. split; [discriminate | reflexivity].
Defined.

(** C8 as it stands fails from 2^64 on: one plan at 2^64 per second has a
    [PPSf64] of 0, and 2^64 converted and scaled is about 18.45. *)
Lemma PPSf64_counterexample :
  let k := fst (Knapsack.Put (GetOrder (Sample.bid 1 4 8 (2 ^ 64) 0))
             (Knapsack.NewKnapsack
                {| Sample.total := Sample.machine 8 16;
                   Sample.free := Sample.machine 8 16 |})) in
  Knapsack.Price k = 2 ^ 64
  /\ Knapsack.PPSf64 k = S754_zero false
  /\ float64_mul (float64_of_Z (Knapsack.Price k)) f1e_18
     = S754_finite false 5192296858534828 (-48)
  /\ Knapsack.PPSf64 k <> float64_mul (float64_of_Z (Knapsack.Price k)) f1e_18.
Proof.
  simpl. split; [reflexivity|]. split; [vm_compute; reflexivity|].
  split; [vm_compute; reflexivity|]. vm_compute. discriminate.
Qed.

(** ** Ranging over a map *)

Section RangeFacts.
Context `{MapRange}.

Lemma elem_of_range {A} (m : gmap string A) id x :
  (id, x) ∈ range m <-> m !! id = Some x.
Proof. rewrite (range_entries A m). apply elem_of_map_to_list. Qed.

Lemma NoDup_fst_range {A} (m : gmap string A) : NoDup (range m).*1.
Proof. rewrite (range_entries A m). apply NoDup_fst_map_to_list. Qed.

Lemma elem_of_range_values {A} (m : gmap string A) x :
  x ∈ (range m).*2 <-> exists id, m !! id = Some x.
Proof.
  rewrite list_elem_of_fmap. split.
  - intros [[id y] [-> Hin]]. exists id. by apply elem_of_range.
  - intros [id Hid]. exists (id, x). split; [done | by apply elem_of_range].
Qed.
End RangeFacts.

(** ** The free-device snapshots *)

(** The plans a loop collects by appending are the plans it ranged over. *)
Lemma foldl_collect_values {A} (entries : list (string * A)) (acc : list A) :
  foldl (fun plans '(_, plan) => plans ++ [plan]) acc entries = acc ++ entries.*2.
Proof.
  revert acc. induction entries as [|[id x] entries IH]; intros acc; simpl.
  - by rewrite app_nil_r.
  - rewrite IH. by rewrite <- app_assoc.
Qed.

(** The map a loop builds by inserting the entries that pass a test. *)
Lemma foldl_insert_lookup {A} (test : A -> bool) (entries : list (string * A))
    (acc : gmap string A) id x :
  NoDup entries.*1 ->
  foldl (fun victims '(i, y) => if test y then <[i := y]> victims else victims)
    acc entries !! id = Some x
  <-> ((id, x) ∈ entries /\ test x = true)
      \/ (acc !! id = Some x /\ forall y, (id, y) ∈ entries -> test y = false).
Proof.
  revert acc. induction entries as [|[i y] entries IH]; intros acc Hnodup; simpl.
  - split.
    + intros Hacc. right. split; [done|]. intros y Hy. by apply elem_of_nil in Hy.
    + intros [[Hin _]|[Hacc _]]; [by apply elem_of_nil in Hin | done].
  - apply NoDup_cons in Hnodup as [Hi Hnodup]. rewrite (IH _ Hnodup). clear IH.
    assert (Hfresh : forall z, (i, z) ∉ entries).
    { intros z Hz. apply Hi. apply list_elem_of_fmap. by exists (i, z). }
    split.
    + intros [[Hin Htest]|[Hacc Hrest]].
      * left. split; [by apply elem_of_cons; right | done].
      * destruct (test y) eqn:Ey.
        -- destruct (decide (i = id)) as [->|Hne].
           ++ rewrite lookup_insert_eq in Hacc. injection Hacc as ->.
              left. split; [apply elem_of_cons; by left | done].
           ++ rewrite lookup_insert_ne in Hacc by done.
              right. split; [done|]. intros z Hz.
              apply elem_of_cons in Hz as [[= -> ->]|Hz]; [done | by apply Hrest].
        -- right. split; [done|]. intros z Hz.
           apply elem_of_cons in Hz as [[= -> ->]|Hz]; [done | by apply Hrest].
    + intros [[Hin Htest]|[Hacc Hrest]].
      * apply elem_of_cons in Hin as [[= -> ->]|Hin]; [|by left].
        right. rewrite Htest. split; [apply lookup_insert_eq|].
        intros z Hz. by apply Hfresh in Hz.
      * right. split.
        -- destruct (test y) eqn:Ey; [|done].
           destruct (decide (i = id)) as [->|Hne].
           ++ rewrite (Hrest y) in Ey; [done | apply elem_of_cons; by left].
           ++ by rewrite lookup_insert_ne.
        -- intros z Hz. apply Hrest. apply elem_of_cons. by right.
Qed.

Lemma filter_ext_elem {A} (P Q : A -> Prop) `{!forall x, Decision (P x)}
    `{!forall x, Decision (Q x)} (l : list A) :
  (forall x, x ∈ l -> P x <-> Q x) -> filter P l = filter Q l.
Proof.
  induction l as [|x l IH]; intros Hext; [done|].
  rewrite !filter_cons.
  rewrite IH by (intros y Hy; apply Hext; apply elem_of_cons; by right).
  destruct (decide (P x)) as [HP|HP], (decide (Q x)) as [HQ|HQ]; try done.
  - exfalso. apply HQ. apply Hext; [apply elem_of_cons; by left | done].
  - exfalso. apply HP. apply Hext; [apply elem_of_cons; by left | done].
Qed.

Section SnapshotFacts.
Context `{HardwareOps Devices} `{!MapRange}.

Lemma VictimPlans_lookup (input : optimizationInput Devices) id plan :
  VictimPlans input !! id = Some plan
  <-> Plans input !! id = Some plan /\ AskPlan.GetDuration plan = 0.
Proof.
  unfold VictimPlans.
  rewrite (foldl_insert_lookup (fun p => AskPlan.GetDuration p =? 0))
    by apply NoDup_fst_range.
  rewrite elem_of_range, Z.eqb_eq, lookup_empty. split.
  - intros [?|[? _]]; done.
  - intros ?. by left.
Qed.

(** The loop of [freeDevices] takes away the plans whose id is not among
    the removal victims, in the order of the range. *)
Lemma subtractPlans_minus_all (entries : list (string * AskPlan.t))
    (removalVictims : gmap string AskPlan.t) (free : Resources) :
  subtractPlans entries removalVictims free
  = minus_all free
      (AskPlan.Resources <$> (filter (fun e => removalVictims !! e.1 = None) entries).*2).
Proof.
  revert free. induction entries as [|[id plan] entries IH]; intros free; [done|].
  simpl. rewrite filter_cons. simpl.
  destruct (removalVictims !! id) eqn:E.
  - rewrite decide_False by done. apply IH.
  - rewrite decide_True by done. simpl.
    destruct (Sub free (AskPlan.Resources plan)); [done | apply IH].
Qed.

Lemma filter_no_victims (entries : list (string * AskPlan.t)) :
  filter (fun e => (∅ : gmap string AskPlan.t) !! e.1 = None) entries = entries.
Proof.
  induction entries as [|e l IH]; [done|].
  rewrite filter_cons_True by apply lookup_empty. by f_equal.
Qed.

Lemma freeDevices_snapshot (input : optimizationInput Devices)
    (removalVictims : gmap string AskPlan.t) :
  freeDevices input removalVictims
  = snapshot (Devices_ input)
      (filter (fun e => removalVictims !! e.1 = None) (range (Plans input))).*2.
Proof. unfold freeDevices, snapshot. by rewrite subtractPlans_minus_all. Qed.

Lemma filter_values {A} (P : A -> Prop) `{!forall x, Decision (P x)}
    (entries : list (string * A)) :
  (filter (fun e => P e.2) entries).*2 = filter P entries.*2.
Proof.
  induction entries as [|[id x] entries IH]; [done|].
  rewrite fmap_cons, !filter_cons. simpl.
  destruct (decide (P x)); simpl; by f_equal.
Qed.

(** Taking resources away one after the other is taking away their sum. *)
Lemma minus_all_sum add zero (Hsum : sum_for_Sub add zero)
    (free : Resources) (rs : list Resources) (left : Resources) :
  minus_all free rs = inr left <-> Sub free (foldr add zero rs) = inr left.
Proof.
  destruct Hsum as [Hzero Hadd].
  revert free. induction rs as [|r rs IH]; intros free; simpl.
  - rewrite Hzero. split; congruence.
  - rewrite Hadd. destruct (Sub free r) as [err|free'].
    + split; [done | intros (c' & ? & _); done].
    + rewrite IH. split.
      * intros Hleft. by exists free'.
      * intros (c' & [= <-] & Hleft). done.
Qed.

(** C4. The victim plans are exactly the existing plans of duration 0.
    The virtual free snapshot is the devices of the worker limited to all
    its resources minus the sum of the resources of the existing plans
    that are not victims, and the natural free snapshot the same with the
    sum over all existing plans. *)
Theorem free_device_snapshots add zero (Hsum : sum_for_Sub add zero)
    (input : optimizationInput Devices) :
  let existing := (range (Plans input)).*2 in
  let total := AskPlanResources (Devices_ input) in
  let sum := fun plans => foldr add zero (AskPlan.Resources <$> plans) in
  (forall id plan,
     VictimPlans input !! id = Some plan
     <-> Plans input !! id = Some plan /\ AskPlan.GetDuration plan = 0)
  /\ (forall plan, plan ∈ existing <-> exists id, Plans input !! id = Some plan)
  /\ VirtualFreeDevices input
     = snapshot (Devices_ input)
         (filter (fun plan => AskPlan.GetDuration plan <> 0) existing)
  /\ FreeDevices input = snapshot (Devices_ input) existing
  /\ (forall devices,
        VirtualFreeDevices input = inr devices
        <-> exists free,
              Sub total (sum (filter (fun plan => AskPlan.GetDuration plan <> 0) existing))
              = inr free
              /\ LimitTo (Devices_ input) free = inr devices)
  /\ (forall devices,
        FreeDevices input = inr devices
        <-> exists free,
              Sub total (sum existing) = inr free
              /\ LimitTo (Devices_ input) free = inr devices).
Proof.
  intros existing total sum.
  assert (Hvirtual : VirtualFreeDevices input
     = snapshot (Devices_ input)
         (filter (fun plan => AskPlan.GetDuration plan <> 0) existing)).
  { unfold VirtualFreeDevices. rewrite freeDevices_snapshot. f_equal.
    unfold existing. rewrite <- filter_values. f_equal.
    apply filter_ext_elem. intros [id plan] Hin. simpl.
    apply elem_of_range in Hin.
    rewrite eq_None_not_Some. split.
    - intros Hnot Hzero. apply Hnot. exists plan. by apply VictimPlans_lookup.
    - intros Hnz [victim Hvictim]. apply VictimPlans_lookup in Hvictim as [Hv Hzero].
      congruence. }
  assert (Hnatural : FreeDevices input = snapshot (Devices_ input) existing).
  { unfold FreeDevices. rewrite freeDevices_snapshot. unfold existing.
    by rewrite filter_no_victims. }
  assert (Hsnap : forall plans devices,
    snapshot (Devices_ input) plans = inr devices
    <-> exists free, Sub total (sum plans) = inr free
          /\ LimitTo (Devices_ input) free = inr devices).
  { intros plans devices. unfold snapshot. fold total.
    destruct (minus_all total (AskPlan.Resources <$> plans)) as [err|free] eqn:E.
    - split; [done|]. intros (free & Hfree & _).
      apply (minus_all_sum add zero Hsum) in Hfree. congruence.
    - apply (minus_all_sum add zero Hsum) in E. split.
      + intros Hlimit. exists free. split; [done|].
        destruct (LimitTo (Devices_ input) free); congruence.
      + intros (free' & Hfree & Hlimit). unfold sum in Hfree.
        rewrite E in Hfree. injection Hfree as <-. by rewrite Hlimit. }
  split; [apply VictimPlans_lookup|].
  split; [intros plan; apply elem_of_range_values|].
  split; [exact Hvirtual|]. split; [exact Hnatural|].
  split; intros devices; [rewrite Hvirtual | rewrite Hnatural]; apply Hsnap.
Qed.
End SnapshotFacts.

Lemma Sample_fits_spec (r capacity : Resources) :
  Sample.fits r capacity = true
  <-> (cpu_cores r <= cpu_cores capacity)%N /\ (ram_bytes r <= ram_bytes capacity)%N
      /\ (storage_bytes r <= storage_bytes capacity)%N
      /\ (net_in_bps r <= net_in_bps capacity)%N
      /\ (net_out_bps r <= net_out_bps capacity)%N
      /\ gpus r = [].
Proof.
  unfold Sample.fits.
  rewrite !andb_true_iff, !N.leb_le, bool_decide_eq_true. tauto.
Qed.

Lemma Sample_sum_for_Sub :
  sum_for_Sub (Devices := Resources) Sample.plus Sample.nothing.
Proof.
  split.
  - intros a. simpl.
    assert (Hfits : Sample.fits Sample.nothing a = true).
    { apply Sample_fits_spec. simpl. repeat split; lia. }
    rewrite Hfits. f_equal. destruct a. unfold Sample.minus. simpl.
    f_equal; lia.
  - intros a b d c. simpl.
    destruct (Sample.fits (Sample.plus b d) a) eqn:Esum.
    + apply Sample_fits_spec in Esum. simpl in Esum.
      destruct Esum as (Hcpu & Hram & Hsto & Hin & Hout & Hgpus).
      apply app_eq_nil in Hgpus as [Hb Hd].
      assert (Hfb : Sample.fits b a = true).
      { apply Sample_fits_spec. repeat split; try lia. done. }
      assert (Hfd : Sample.fits d (Sample.minus a b) = true).
      { apply Sample_fits_spec. simpl. repeat split; try lia. done. }
      rewrite Hfb. split.
      * intros [= <-]. exists (Sample.minus a b). split; [done|].
        rewrite Hfd. f_equal. unfold Sample.minus, Sample.plus. simpl. f_equal; lia.
      * intros (c' & [= <-] & Hc). rewrite Hfd in Hc. injection Hc as <-.
        f_equal. unfold Sample.minus, Sample.plus. simpl. f_equal; lia.
    + split; [done|]. intros (c' & Hb & Hd). exfalso.
      destruct (Sample.fits b a) eqn:Hfb; [|done]. injection Hb as <-.
      destruct (Sample.fits d (Sample.minus a b)) eqn:Hfd; [|done].
      apply Sample_fits_spec in Hfb, Hfd. simpl in Hfd.
      assert (Hfits : Sample.fits (Sample.plus b d) a = true); [|congruence].
      apply Sample_fits_spec. simpl.
      destruct Hfb as (? & ? & ? & ? & ? & ->), Hfd as (? & ? & ? & ? & ? & ->).
      repeat split; lia || done.
Qed.

Lemma free_device_snapshots_witness :
  VirtualFreeDevices Sample.spotInput = inr (Sample.machine 8 16)
  /\ FreeDevices Sample.spotInput = inr (Sample.machine 4 8).
Proof.
  destruct (free_device_snapshots Sample.plus Sample.nothing Sample_sum_for_Sub
              Sample.spotInput)
    as (_ & _ & Hvirtual & Hnatural & _).
  split; [rewrite Hvirtual | rewrite Hnatural]; vm_compute; reflexivity.
Defined.

(** ** Splitting plans *)

Lemma elem_of_orderKeys (plans : list AskPlan.t) (acc : gset string) key :
  key ∈ foldl (fun orders plan => {[orderKey plan]} ∪ orders) acc plans
  <-> key ∈ acc \/ key ∈ orderKey <$> plans.
Proof.
  revert acc. induction plans as [|plan plans IH]; intros acc; simpl.
  - rewrite elem_of_nil. tauto.
  - rewrite IH, elem_of_cons, elem_of_union, elem_of_singleton. tauto.
Qed.

Lemma orderKey_in_orderKeys (plan : AskPlan.t) (plans : list AskPlan.t) :
  orderKey plan ∈ orderKeys plans <-> GetOrderID plan ∈ GetOrderID <$> plans.
Proof.
  unfold orderKeys. rewrite elem_of_orderKeys, !list_elem_of_fmap.
  split.
  - intros [Hempty|[other [Hkey Hin]]]; [by apply elem_of_empty in Hempty|].
    exists other. split; [|done]. by apply (inj pretty).
  - intros [other [Hid Hin]]. right. exists other. split; [|done].
    unfold orderKey. by rewrite Hid.
Qed.

Lemma foldl_partition {A} (P : A -> Prop) `{!forall x, Decision (P x)}
    (l : list A) (no yes : list A) :
  foldl (fun '(create, ignore) x =>
           if decide (P x) then (create, ignore ++ [x]) else (create ++ [x], ignore))
    (no, yes) l
  = (no ++ filter (fun x => ~ P x) l, yes ++ filter P l).
Proof.
  revert no yes. induction l as [|x l IH]; intros no yes; simpl.
  - by rewrite !filter_nil, !app_nil_r.
  - rewrite !filter_cons. destruct (decide (P x)) as [HP|HP].
    + rewrite IH. rewrite decide_False by tauto. by rewrite <- app_assoc.
    + rewrite IH. rewrite decide_True by done. by rewrite <- app_assoc.
Qed.

Lemma foldl_reject {A} (P : A -> Prop) `{!forall x, Decision (P x)}
    (entries : list (string * A)) (acc : list A) :
  foldl (fun remove '(_, x) => if decide (P x) then remove else remove ++ [x])
    acc entries
  = acc ++ filter (fun x => ~ P x) entries.*2.
Proof.
  revert acc. induction entries as [|[id x] entries IH]; intros acc; simpl.
  - by rewrite filter_nil, app_nil_r.
  - rewrite filter_cons, IH. destruct (decide (P x)) as [HP|HP].
    + by rewrite decide_False by tauto.
    + rewrite decide_True by done. by rewrite <- app_assoc.
Qed.

Section SplitPlansFacts.
Context `{MapRange}.

Lemma elem_of_existingOrderIDs (plans : gmap string AskPlan.t) (order : Z) :
  order ∈ existingOrderIDs plans
  <-> exists id plan, plans !! id = Some plan /\ GetOrderID plan = order.
Proof.
  unfold existingOrderIDs. rewrite elem_of_list_to_set, list_elem_of_fmap.
  split.
  - intros [plan [-> Hin]]. apply list_elem_of_fmap in Hin as [[id p] [-> Hin]].
    exists id, p. split; [by apply elem_of_map_to_list | done].
  - intros (id & plan & Hid & <-). exists plan. split; [done|].
    apply list_elem_of_fmap. exists (id, plan). split; [done|].
    by apply elem_of_map_to_list.
Qed.

Lemma existingOrderIDs_range (plans : gmap string AskPlan.t) (order : Z) :
  order ∈ existingOrderIDs plans <-> order ∈ GetOrderID <$> (range plans).*2.
Proof.
  unfold existingOrderIDs. rewrite elem_of_list_to_set.
  by rewrite (range_entries _ plans).
Qed.

(** C5. The candidates whose order id occurs among the order ids of the
    existing plans are the ignored ones, all other candidates are the
    created ones, and the existing plans whose order id does not occur
    among the candidates are the removed ones; a candidate that shares its
    order id with an existing plan is neither created nor removed. *)
Theorem splitPlans_classifies (plans : gmap string AskPlan.t)
    (candidates : list AskPlan.t) :
  let '(create, remove, ignore) := splitPlans plans candidates in
  ignore = filter (fun plan => GetOrderID plan ∈ existingOrderIDs plans) candidates
  /\ create = filter (fun plan => GetOrderID plan ∉ existingOrderIDs plans) candidates
  /\ remove
     = filter (fun plan => GetOrderID plan ∉ candidateOrderIDs candidates) (range plans).*2
  /\ (forall order,
        order ∈ existingOrderIDs plans
        <-> exists id plan, plans !! id = Some plan /\ GetOrderID plan = order)
  /\ (forall order,
        order ∈ candidateOrderIDs candidates
        <-> exists plan, plan ∈ candidates /\ GetOrderID plan = order)
  /\ (forall plan,
        plan ∈ remove
        <-> (exists id, plans !! id = Some plan)
            /\ GetOrderID plan ∉ candidateOrderIDs candidates)
  /\ (forall plan,
        plan ∈ candidates -> GetOrderID plan ∈ existingOrderIDs plans ->
        plan ∈ ignore /\ (plan ∉ create) /\ (plan ∉ remove)).
Proof.
  unfold splitPlans.
  rewrite (foldl_partition (fun plan => orderKey plan ∈ orderKeys (range plans).*2)).
  rewrite (foldl_reject (fun plan => orderKey plan ∈ orderKeys candidates)).
  simpl.
  assert (Hignore :
    filter (fun plan => orderKey plan ∈ orderKeys (range plans).*2) candidates
    = filter (fun plan => GetOrderID plan ∈ existingOrderIDs plans) candidates).
  { apply list_filter_iff. intros plan.
    by rewrite orderKey_in_orderKeys, existingOrderIDs_range. }
  assert (Hcreate :
    filter (fun plan => ~ (orderKey plan ∈ orderKeys (range plans).*2)) candidates
    = filter (fun plan => GetOrderID plan ∉ existingOrderIDs plans) candidates).
  { apply list_filter_iff. intros plan.
    by rewrite orderKey_in_orderKeys, existingOrderIDs_range. }
  assert (Hcandidates : forall order,
    order ∈ candidateOrderIDs candidates
    <-> exists plan, plan ∈ candidates /\ GetOrderID plan = order).
  { intros order. unfold candidateOrderIDs.
    rewrite elem_of_list_to_set, list_elem_of_fmap.
    split; intros (plan & ? & ?); by exists plan. }
  assert (Hremove :
    filter (fun plan => ~ (orderKey plan ∈ orderKeys candidates)) (range plans).*2
    = filter (fun plan => GetOrderID plan ∉ candidateOrderIDs candidates)
        (range plans).*2).
  { apply list_filter_iff. intros plan. rewrite orderKey_in_orderKeys.
    unfold candidateOrderIDs. by rewrite elem_of_list_to_set. }
  rewrite Hignore, Hcreate, Hremove.
  split; [done|]. split; [done|]. split; [done|].
  split; [apply elem_of_existingOrderIDs|]. split; [exact Hcandidates|].
  split.
  - intros plan. rewrite list_elem_of_filter, elem_of_range_values. tauto.
  - intros plan Hin Hexisting. rewrite !list_elem_of_filter. split; [done|].
    split; [tauto|]. intros [Hnot _]. apply Hnot.
    apply Hcandidates. by exists plan.
Qed.
End SplitPlansFacts.

(** ** The epoch *)

Lemma bind_ok {W A B} (c : Eff W A) (k : A -> Eff W B) w w' a :
  c w = (w', inr a) -> bind c k w = k a w'.
Proof. unfold bind. by intros ->. Qed.

Lemma bind_err {W A B} (c : Eff W A) (k : A -> Eff W B) w w' err :
  c w = (w', inl err) -> bind c k w = (w', inl err).
Proof. unfold bind. by intros ->. Qed.

Lemma foldl_collect_ids (plans : list AskPlan.t) (acc : list string) :
  foldl (fun victims plan => victims ++ [AskPlan.ID plan]) acc plans
  = acc ++ (AskPlan.ID <$> plans).
Proof.
  revert acc. induction plans as [|plan plans IH]; intros acc; simpl.
  - by rewrite app_nil_r.
  - rewrite IH. by rewrite <- app_assoc.
Qed.

Lemma foldl_collect_keys {A} (test : A -> bool) (entries : list (string * A))
    (acc : list string) :
  foldl (fun victims '(id, x) => if test x then victims ++ [id] else victims) acc entries
  = acc ++ (filter (fun e => test e.2 = true) entries).*1.
Proof.
  revert acc. induction entries as [|[id x] entries IH]; intros acc; simpl.
  - by rewrite app_nil_r.
  - rewrite IH, filter_cons. simpl. destruct (test x).
    + rewrite decide_True by done. by rewrite <- app_assoc.
    + by rewrite decide_False by done.
Qed.

Section EngineFacts.
Context `{OptimizerOps DM Devices} `{!HardwareOps Devices}
        `{!WorkerOps W Devices} `{!MapRange}.
Variable m : workerEngine.

(** The current price of the worker is the sum of the per-second prices of
    its plans, whatever the order of the range. *)
Lemma optimizationInput_Price_sum (input : optimizationInput Devices) :
  optimizationInput_Price input = SumPrice (map_to_list (Plans input)).*2.
Proof.
  unfold optimizationInput_Price. rewrite foldl_collect_values. simpl.
  apply SumPrice_Permutation. by rewrite (range_entries _ (Plans input)).
Qed.

Lemma swingTime_true (input : optimizationInput Devices) (virtualKnapsack : Knapsack.t DM) :
  swingTime m input virtualKnapsack = true
  <-> PriceThreshold (cfg m)
      <= Knapsack.Price virtualKnapsack - optimizationInput_Price input.
Proof. unfold swingTime. rewrite Z.leb_le, Z.sgn_nonneg. lia. Qed.

(** When the snapshots, the orders of the victims and the two
    optimizations succeed, the epoch goes on with [manage] on the two
    knapsacks. *)
Lemma optimizeAndManage_tracks (input : optimizationInput Devices) (w w1 : W)
    naturalFree virtualFree virtualOrders (natural virtual : Knapsack.t DM) :
  FreeDevices input = inr naturalFree ->
  VirtualFreeDevices input = inr virtualFree ->
  ordersForPlans (VictimPlans input) w = (w1, inr virtualOrders) ->
  optimize m (Blacklist_IsAllowed w1) (Devices_ input) naturalFree (Orders input)
  = inr natural ->
  optimize m (Blacklist_IsAllowed w1) (Devices_ input) virtualFree
    (Orders input ++ virtualOrders) = inr virtual ->
  optimizeAndManage m input w = manage m input natural virtual w1.
Proof.
  intros Hnf Hvf Horders Hnatural Hvirtual. unfold optimizeAndManage.
  rewrite Hnf, Hvf. unfold bind at 1, lift at 1. unfold bind at 1, lift at 1.
  unfold bind at 1, wrap. rewrite Horders.
  unfold bind at 1, lift at 1. rewrite Hnatural.
  unfold bind at 1, lift at 1. by rewrite Hvirtual.
Qed.

(** C1. In an epoch in which both tracks succeed and dry-run is off, the
    strategy is replacement exactly when the price of the virtual knapsack
    minus the current price, the sum of the per-second prices of the
    existing plans, is at least the threshold. Under replacement the plans
    to remove are removed and the winners are the plans to create; under
    appending the winners are the plans of the natural knapsack. With a
    threshold of 0 the strategy is replacement whenever the virtual price
    is at least the current price. *)
Theorem swing_rule (input : optimizationInput Devices) (w w1 : W)
    naturalFree virtualFree virtualOrders (natural virtual : Knapsack.t DM)
    (Hnatural_free : FreeDevices input = inr naturalFree)
    (Hvirtual_free : VirtualFreeDevices input = inr virtualFree)
    (Horders : ordersForPlans (VictimPlans input) w = (w1, inr virtualOrders))
    (Hnatural :
       optimize m (Blacklist_IsAllowed w1) (Devices_ input) naturalFree (Orders input)
       = inr natural)
    (Hvirtual :
       optimize m (Blacklist_IsAllowed w1) (Devices_ input) virtualFree
         (Orders input ++ virtualOrders) = inr virtual)
    (Hwet : DryRun (cfg m) = false) :
  let current := SumPrice (map_to_list (Plans input)).*2 in
  let '(create, remove, ignore) := splitPlans (Plans input) (Knapsack.Plans virtual) in
  optimizeAndManage m input w
  = (winners <- selectWinners m input natural virtual;;
     if Nat.eqb (length winners) 0 then throw "no plans found"
     else (_ <- mapEff (createPlan m) winners;; ret tt))%eff w1
  /\ (strategy m input virtual = Replacement
      <-> PriceThreshold (cfg m) <= Knapsack.Price virtual - current)
  /\ (strategy m input virtual = Appending
      <-> Knapsack.Price virtual - current < PriceThreshold (cfg m))
  /\ (strategy m input virtual = Replacement ->
      selectWinners m input natural virtual w1
      = match RemoveAskPlans (AskPlan.ID <$> remove) w1 with
        | (w2, Some err) => (w2, inl err)
        | (w2, None) => (w2, inr create)
        end)
  /\ (strategy m input virtual = Appending ->
      selectWinners m input natural virtual w1 = (w1, inr (Knapsack.Plans natural)))
  /\ (PriceThreshold (cfg m) = 0 ->
      strategy m input virtual = Replacement <-> current <= Knapsack.Price virtual).
Proof.
  intros current.
  destruct (splitPlans (Plans input) (Knapsack.Plans virtual))
    as [[create remove] ignore] eqn:Esplit.
  assert (Hcurrent : optimizationInput_Price input = current)
    by apply optimizationInput_Price_sum.
  assert (Hreplace : strategy m input virtual = Replacement
      <-> PriceThreshold (cfg m) <= Knapsack.Price virtual - current).
  { rewrite <- Hcurrent, <- swingTime_true. unfold strategy.
    destruct (swingTime m input virtual); split; congruence. }
  assert (Happend : strategy m input virtual = Appending
      <-> Knapsack.Price virtual - current < PriceThreshold (cfg m)).
  { destruct (strategy m input virtual).
    - split; [done|]. intros Hlt.
      assert (PriceThreshold (cfg m) <= Knapsack.Price virtual - current)
        by (by apply Hreplace).
      lia.
    - split; [|done]. intros _.
      destruct (Z.lt_ge_cases (Knapsack.Price virtual - current) (PriceThreshold (cfg m)))
        as [Hlt|Hge]; [done|].
      apply Hreplace in Hge. done. }
  split.
  { rewrite (optimizeAndManage_tracks input w w1 naturalFree virtualFree
               virtualOrders natural virtual) by done.
    unfold manage. by rewrite Hwet. }
  split; [exact Hreplace|]. split; [exact Happend|]. split; [|split].
  - unfold strategy, selectWinners. destruct (swingTime m input virtual); [|done].
    intros _. rewrite Esplit. rewrite foldl_collect_ids. simpl.
    unfold bind, check, ret.
    by destruct (RemoveAskPlans (AskPlan.ID <$> remove) w1) as [w2 [err|]].
  - unfold strategy, selectWinners. by destruct (swingTime m input virtual).
  - intros Hzero. rewrite Hreplace, Hzero. lia.
Qed.

(** The ids [tryRemoveUnsoldPlans] collects are those of the plans that
    have been without a deal for the stale threshold or longer. *)
Lemma elem_of_unsoldVictims (now : Z) (plans : gmap string AskPlan.t) id :
  id ∈ unsoldVictims m now plans
  <-> exists plan, plans !! id = Some plan
        /\ StaleThreshold (cfg m) <= AskPlan.UnsoldDuration now plan.
Proof.
  unfold unsoldVictims.
  rewrite (foldl_collect_keys
             (fun plan => StaleThreshold (cfg m) <=? AskPlan.UnsoldDuration now plan)).
  simpl. rewrite list_elem_of_fmap. split.
  - intros [[i plan] [-> Hin]]. apply list_elem_of_filter in Hin as [Htest Hin].
    exists plan. split; [by apply elem_of_range | by apply Z.leb_le].
  - intros (plan & Hplan & Hstale). exists (id, plan). split; [done|].
    apply list_elem_of_filter. split; [by apply Z.leb_le | by apply elem_of_range].
Qed.

Lemma execute_pass_stale (w w1 : W) (input : optimizationInput Devices) :
  prelude w = (w1, inr input) ->
  execute_pass m w
  = (removedPlans <- tryRemoveUnsoldPlans m (Plans input);;
     if negb (Nat.eqb (length removedPlans) 0) then ret Restart
     else (_ <- optimizeAndManage m input;; ret Done))%eff w1.
Proof. intros Hprelude. unfold execute_pass. by rewrite (bind_ok _ _ _ _ _ Hprelude). Qed.

Lemma execute_pass_no_victims (w w1 : W) (input : optimizationInput Devices) :
  prelude w = (w1, inr input) ->
  unsoldVictims m (Now w1) (Plans input) = [] ->
  (forall fuel,
     execute m (S fuel) w
     = match optimizeAndManage m input w1 with
       | (w2, inl err) => Some (w2, Some err)
       | (w2, inr _) => Some (w2, None)
       end)
  /\ (forall fuel, execute_restarts m (S fuel) w = Some O).
Proof.
  intros Hprelude Hnone.
  assert (Hpass : execute_pass m w
    = match optimizeAndManage m input w1 with
      | (w2, inl err) => (w2, inl err)
      | (w2, inr _) => (w2, inr Done)
      end).
  { rewrite (execute_pass_stale w w1 input Hprelude).
    unfold bind at 1, tryRemoveUnsoldPlans. rewrite Hnone. simpl.
    unfold bind, ret. by destruct (optimizeAndManage m input w1) as [w2 [err|[]]]. }
  split; intros fuel; simpl; rewrite Hpass;
    by destruct (optimizeAndManage m input w1) as [w2 [err|[]]].
Qed.

Lemma execute_pass_removed (w w1 w2 : W) (input : optimizationInput Devices) :
  prelude w = (w1, inr input) ->
  unsoldVictims m (Now w1) (Plans input) <> [] ->
  RemoveAskPlans (unsoldVictims m (Now w1) (Plans input)) w1 = (w2, None) ->
  (forall fuel, execute m (S fuel) w = execute m fuel w2)
  /\ (forall fuel, execute_restarts m (S fuel) w = S <$> execute_restarts m fuel w2).
Proof.
  intros Hprelude Hsome Hremove.
  assert (Hpass : execute_pass m w = (w2, inr Restart)).
  { rewrite (execute_pass_stale w w1 input Hprelude).
    unfold bind at 1, tryRemoveUnsoldPlans.
    destruct (unsoldVictims m (Now w1) (Plans input)) as [|id victims]; [done|].
    simpl. unfold bind, wrap, check, ret. by rewrite Hremove. }
  split; intros fuel; simpl; by rewrite Hpass.
Qed.

Lemma execute_pass_not_removed (w w1 w2 : W) (input : optimizationInput Devices) err :
  prelude w = (w1, inr input) ->
  unsoldVictims m (Now w1) (Plans input) <> [] ->
  RemoveAskPlans (unsoldVictims m (Now w1) (Plans input)) w1 = (w2, Some err) ->
  (forall fuel,
     execute m (S fuel) w
     = Some (w2, Some ("failed to remove some unsold plans: " +:+ err)))
  /\ (forall fuel, execute_restarts m (S fuel) w = Some O).
Proof.
  intros Hprelude Hsome Hremove.
  assert (Hpass : execute_pass m w
    = (w2, inl ("failed to remove some unsold plans: " +:+ err))).
  { rewrite (execute_pass_stale w w1 input Hprelude).
    unfold bind at 1, tryRemoveUnsoldPlans.
    destruct (unsoldVictims m (Now w1) (Plans input)) as [|id victims]; [done|].
    simpl. unfold bind, wrap, check, ret. by rewrite Hremove. }
  split; intros fuel; simpl; by rewrite Hpass.
Qed.

(** C7, as amended. In a pass of the epoch, the plans whose unsold
    duration is at least the stale threshold are removed by one call
    before any optimization. With no such plan the pass goes on to the
    optimization. When the removal succeeds the epoch starts again from
    its beginning, and the new pass does the same: every pass that still
    finds such a plan adds a restart. When the removal fails the epoch
    ends with the error. *)
Theorem stale_removal_restarts (fuel : nat) (w w1 : W)
    (input : optimizationInput Devices)
    (Hprelude : prelude w = (w1, inr input)) :
  let victims := unsoldVictims m (Now w1) (Plans input) in
  (forall id,
     id ∈ victims
     <-> exists plan, Plans input !! id = Some plan
           /\ StaleThreshold (cfg m) <= AskPlan.UnsoldDuration (Now w1) plan)
  /\ (victims = [] ->
      execute m (S fuel) w
      = match optimizeAndManage m input w1 with
        | (w2, inl err) => Some (w2, Some err)
        | (w2, inr _) => Some (w2, None)
        end
      /\ execute_restarts m (S fuel) w = Some O)
  /\ (victims <> [] ->
      forall w2, RemoveAskPlans victims w1 = (w2, None) ->
      execute m (S fuel) w = execute m fuel w2
      /\ execute_restarts m (S fuel) w = S <$> execute_restarts m fuel w2)
  /\ (victims <> [] ->
      forall w2 err, RemoveAskPlans victims w1 = (w2, Some err) ->
      execute m (S fuel) w
      = Some (w2, Some ("failed to remove some unsold plans: " +:+ err))
      /\ execute_restarts m (S fuel) w = Some O).
Proof.
  intros victims. split; [intros id; apply elem_of_unsoldVictims|].
  split; [|split].
  - intros Hnone.
    destruct (execute_pass_no_victims w w1 input Hprelude Hnone) as [Hrun Hcount].
    split; [apply Hrun | apply Hcount].
  - intros Hsome w2 Hremove.
    destruct (execute_pass_removed w w1 w2 input Hprelude Hsome Hremove)
      as [Hrun Hcount].
    split; [apply Hrun | apply Hcount].
  - intros Hsome w2 err Hremove.
    destruct (execute_pass_not_removed w w1 w2 input err Hprelude Hsome Hremove)
      as [Hrun Hcount].
    split; [apply Hrun | apply Hcount].
Qed.
End EngineFacts.

Lemma swing_rule_witness :
  strategy (Sample.engine false 5 1000) Sample.spotInput Sample.spotVirtual = Replacement
  /\ selectWinners (Sample.engine false 5 1000) Sample.spotInput
       Sample.spotNatural Sample.spotVirtual Sample.spotWorld
     = (Sample.tick ∅ Sample.spotWorld, inr (Knapsack.plans Sample.spotVirtual)).
Proof.
  pose proof (swing_rule (Sample.engine false 5 1000) Sample.spotInput
    Sample.spotWorld Sample.spotWorld (Sample.machine 4 8) (Sample.machine 8 16)
    [ {| GetOrder := GetOrder (Sample.bid 2 4 8 10 0); CreatedTS := 100 |} ]
    Sample.spotNatural Sample.spotVirtual
    eq_refl eq_refl eq_refl eq_refl eq_refl eq_refl) as Hrule.
  simpl in Hrule.
  destruct (splitPlans (Plans Sample.spotInput) (Knapsack.Plans Sample.spotVirtual))
    as [[create remove] ignore] eqn:Esplit.
  destruct Hrule as (_ & Hreplace & _ & Hwinners & _).
  assert (Hstrategy :
    strategy (Sample.engine false 5 1000) Sample.spotInput Sample.spotVirtual
    = Replacement).
  { apply Hreplace. vm_compute. discriminate. }
  split; [exact Hstrategy|].
  rewrite (Hwinners Hstrategy).
  vm_compute in Esplit. injection Esplit as <- <- _.
  vm_compute. reflexivity.
Defined.

Lemma stale_removal_restarts_witness :
  execute (Sample.engine false 5 10) 3 Sample.agingWorld
  = execute (Sample.engine false 5 10) 2
      (Sample.tick (delete "a" (Sample.askPlans Sample.agingWorld)) Sample.agingWorld)
  /\ execute_restarts (Sample.engine false 5 10) 3 Sample.agingWorld
     = S <$> execute_restarts (Sample.engine false 5 10) 2
               (Sample.tick (delete "a" (Sample.askPlans Sample.agingWorld))
                  Sample.agingWorld).
Proof.
  assert (Hprelude :
    prelude Sample.agingWorld = (Sample.agingWorld, inr Sample.agingInput))
    by (vm_compute; reflexivity).
  destruct (stale_removal_restarts (Sample.engine false 5 10) 2
              Sample.agingWorld Sample.agingWorld Sample.agingInput Hprelude)
    as (_ & _ & Hrestart & _).
  apply Hrestart.
  - vm_compute. discriminate.
  - vm_compute. reflexivity.
Defined.

(** C7 as it stands fails on the bound: with two plans that reach the
    stale threshold one tick apart, the first pass removes one, the second
    pass the other, and the epoch restarts twice before it optimizes. *)
Lemma restart_twice_counterexample :
  exists restarts,
    execute_restarts (Sample.engine false 5 10) 5 Sample.agingWorld = Some restarts
    /\ ~ (restarts <= 1)%nat.
Proof.
  exists 2%nat. split; [vm_compute; reflexivity | lia].
Qed.

(** ** The knapsack in memory *)

Lemma mapM_ext_Forall {A B} (f g : A -> option B) (l : list A) :
  Forall (fun x => f x = g x) l -> mapM f l = mapM g l.
Proof.
  induction 1 as [|x l Hx _ IH]; [done|].
  simpl. by rewrite Hx, IH.
Qed.

Section MemFacts.
Context `{DeviceManagerOps DM Devices}.
Variable spare : nat -> nat.

Abbreviation heap := (Mem.heap DM).

Lemma alloc_fresh {A} (objects : gmap Mem.loc A) : objects !! Mem.alloc objects = None.
Proof. apply not_elem_of_dom. unfold Mem.alloc. apply is_fresh. Qed.

Lemma alloc_ne {A} (objects : gmap Mem.loc A) (l : Mem.loc) :
  is_Some (objects !! l) -> l <> Mem.alloc objects.
Proof. intros [x Hx] ->. by rewrite alloc_fresh in Hx. Qed.

Lemma cells_length (h : heap) (s : Mem.slice) :
  Mem.slice_ok h s -> length (Mem.cells h s) = Mem.slice_len s.
Proof.
  destruct s as [|a len cap]; [done|]. simpl.
  intros (Hle & arr & -> & Hlen). simpl. rewrite length_take. lia.
Qed.

(** [append] adds the pointer at the end of the slice; it touches the
    backing array of the slice or a new one, and nothing else. *)
Lemma append_spec (s s' : Mem.slice) (p : Mem.loc) (h h' : heap) :
  Mem.slice_ok h s ->
  Mem.append spare s p h = (h', s') ->
  Mem.askPlans h' = Mem.askPlans h
  /\ Mem.managers h' = Mem.managers h
  /\ Mem.knapsacks h' = Mem.knapsacks h
  /\ Mem.cells h' s' = Mem.cells h s ++ [Some p]
  /\ Mem.slice_ok h' s'
  /\ (forall a, is_Some (Mem.arrays h !! a) -> Mem.slice_array s <> Some a ->
        Mem.arrays h' !! a = Mem.arrays h !! a)
  /\ (forall a, Mem.slice_array s' = Some a ->
        Mem.slice_array s = Some a \/ Mem.arrays h !! a = None).
Proof.
  intros Hok Happend.
  assert (Hmoved : forall h' s',
    (Mem.with_arrays
       (insert (Mem.alloc (Mem.arrays h))
          (Mem.cells h s ++ Some p :: replicate (spare (length (Mem.cells h s))) None)) h,
     Mem.Slice (Mem.alloc (Mem.arrays h)) (S (length (Mem.cells h s)))
       (S (length (Mem.cells h s)) + spare (length (Mem.cells h s)))) = (h', s') ->
    Mem.askPlans h' = Mem.askPlans h
    /\ Mem.managers h' = Mem.managers h
    /\ Mem.knapsacks h' = Mem.knapsacks h
    /\ Mem.cells h' s' = Mem.cells h s ++ [Some p]
    /\ Mem.slice_ok h' s'
    /\ (forall a, is_Some (Mem.arrays h !! a) -> Mem.slice_array s <> Some a ->
          Mem.arrays h' !! a = Mem.arrays h !! a)
    /\ (forall a, Mem.slice_array s' = Some a ->
          Mem.slice_array s = Some a \/ Mem.arrays h !! a = None)).
  { intros h2 s2 [= <- <-]. simpl. repeat split.
    - rewrite lookup_insert_eq. simpl.
      rewrite (cons_middle (Some p)), app_assoc.
      apply take_app_length'. rewrite length_app. simpl. lia.
    - lia.
    - eexists. split; [apply lookup_insert_eq|].
      rewrite length_app. simpl. rewrite length_replicate. lia.
    - intros a Ha _. apply lookup_insert_ne. intros <-.
      rewrite alloc_fresh in Ha. by destruct Ha.
    - intros a [= <-]. right. apply alloc_fresh. }
  destruct s as [|a len cap]; simpl in Happend; [by apply Hmoved|].
  destruct (decide (len < cap)%nat) as [Hlt|Hge]; [|by apply Hmoved].
  injection Happend as <- <-. simpl in *.
  destruct Hok as (Hle & arr & Harr & Hlen).
  repeat split.
  - rewrite lookup_alter_eq, Harr. simpl.
    rewrite (take_S_r _ _ (Some p)) by (apply list_lookup_insert_eq; lia).
    by rewrite take_insert_ge by lia.
  - lia.
  - exists (<[len := Some p]> arr). split.
    + by rewrite lookup_alter_eq, Harr.
    + by rewrite length_insert.
  - intros b _ Hb. apply lookup_alter_ne. congruence.
  - intros b [= <-]. by left.
Qed.
Lemma same_for_cells (h h' : heap) (m : Mem.Knapsack) :
  Mem.same_for h h' m -> Mem.cells h' (Mem.plans m) = Mem.cells h (Mem.plans m).
Proof.
  intros (_ & Harrays & _). destruct (Mem.plans m) as [|a len cap]; [done|].
  simpl. by rewrite (Harrays a).
Qed.

Lemma same_for_deref (h h' : heap) (m : Mem.Knapsack) cell :
  Mem.same_for h h' m -> is_Some (Mem.deref h cell) -> Mem.deref h' cell = Mem.deref h cell.
Proof.
  intros (_ & _ & Hplans). destruct cell as [q|]; simpl; [|done]. apply Hplans.
Qed.

Lemma same_for_view (h h' : heap) (k : Mem.loc) (m : Mem.Knapsack) :
  Mem.knapsacks h !! k = Some m ->
  Mem.knapsacks h' !! k = Some m ->
  Mem.knapsack_ok h k ->
  Mem.same_for h h' m ->
  Mem.Plans k h' = Mem.Plans k h
  /\ Mem.read k h' = Mem.read k h
  /\ Mem.knapsack_ok h' k.
Proof.
  intros Hk Hk' (m' & Hm' & Hmanager & Hslice & Hcells) Hsame.
  assert (m' = m) as -> by congruence.
  pose proof (same_for_cells h h' m Hsame) as Hsame_cells.
  assert (Hderef : Forall (fun cell => Mem.deref h' cell = Mem.deref h cell)
                     (Mem.cells h (Mem.plans m))).
  { eapply Forall_impl; [exact Hcells|]. intros cell. apply (same_for_deref h h' m cell Hsame). }
  destruct Hsame as (Hmanagers & Harrays & Hplans).
  split; [|split].
  - unfold Mem.Plans. rewrite Hk, Hk'. simpl. by rewrite Hsame_cells.
  - unfold Mem.read. rewrite Hk, Hk'. simpl. rewrite Hmanagers, Hsame_cells.
    by rewrite (mapM_ext_Forall _ _ _ Hderef).
  - exists m. split; [done|]. split; [by rewrite Hmanagers|]. split.
    + destruct (Mem.plans m) as [|a len cap]; [done|]. simpl in *.
      by rewrite (Harrays a).
    + rewrite Hsame_cells. rewrite Forall_forall in Hcells, Hderef.
      apply Forall_forall. intros cell Hin. rewrite (Hderef cell Hin). by apply Hcells.
Qed.

Lemma apart_sym (h : heap) (k1 k2 : Mem.loc) : Mem.apart h k1 k2 -> Mem.apart h k2 k1.
Proof.
  intros (Hne & Hok1 & Hok2 & Hsep). split; [done|]. split; [done|]. split; [done|].
  intros m2 m1 Hm2 Hm1. destruct (Hsep m1 m2 Hm1 Hm2) as [Hmanagers Harrays].
  split; [done|]. intros a Ha Ha'. by apply (Harrays a).
Qed.

(** A [Put] into a knapsack in good order returns. *)
Lemma Put_returns (order : Order.t) (k : Mem.loc) (h : heap) :
  Mem.knapsack_ok h k -> is_Some (Mem.Put spare order k h).
Proof.
  intros (m & Hm & [dm Hdm] & _). unfold Mem.Put. rewrite Hm. simpl. rewrite Hdm. simpl.
  destruct (Consume _ _ dm) as [dm' [err|resources]]; [done|].
  by destruct (Mem.append _ _ _ _).
Qed.

(** A [Put] into one of two knapsacks that are apart leaves the other as
    it is, and leaves the two apart. *)
Lemma Put_frame (order : Order.t) (k1 k2 : Mem.loc) (h h' : heap) outcome :
  Mem.apart h k1 k2 ->
  Mem.Put spare order k1 h = Some (h', outcome) ->
  Mem.Plans k2 h' = Mem.Plans k2 h
  /\ Mem.read k2 h' = Mem.read k2 h
  /\ Mem.apart h' k1 k2.
Proof.
  intros (Hne & Hok1 & Hok2 & Hsep) Hput.
  destruct Hok1 as (m1 & Hm1 & [dm Hdm] & Hslice1 & Hcells1).
  pose proof Hok2 as (m2 & Hm2 & Hdm2 & Hslice2 & Hcells2).
  destruct (Hsep m1 m2 Hm1 Hm2) as [Hmanagers Harrays].
  unfold Mem.Put in Hput. rewrite Hm1 in Hput. simpl in Hput.
  rewrite Hdm in Hput. simpl in Hput.
  destruct (Consume _ _ dm) as [dm' [err|resources]].
  - injection Hput as <- <-.
    assert (Hsame : Mem.same_for h (Mem.with_managers (insert (Mem.manager m1) dm') h) m2).
    { split; [|done]. simpl. by apply lookup_insert_ne. }
    destruct (same_for_view h (Mem.with_managers (insert (Mem.manager m1) dm') h)
                k2 m2 Hm2 Hm2 Hok2 Hsame) as (HPlans & Hread & Hok2').
    split; [done|]. split; [done|]. split; [done|]. split; [|split; [done|]].
    + exists m1. split; [done|]. split; [simpl; by rewrite lookup_insert_eq|].
      split; [done|]. done.
    + simpl. intros m1' m2' Hm1' Hm2'. by apply Hsep.
  - set (h1 := Mem.with_managers (insert (Mem.manager m1) dm') h) in *.
    set (p := Mem.alloc (Mem.askPlans h)) in *.
    set (h2 := Mem.with_askPlans (insert p (Knapsack.planFor order resources)) h1) in *.
    destruct (Mem.append spare (Mem.plans m1) p h2) as [h3 s] eqn:Eappend.
    injection Hput as <- <-.
    assert (Hslice1' : Mem.slice_ok h2 (Mem.plans m1)) by done.
    destruct (append_spec _ _ _ _ _ Hslice1' Eappend)
      as (Hplans3 & Hmanagers3 & Hknapsacks3 & Hcells3 & Hslice3 & Harrays3 & Hnew3).
    assert (Hfresh : forall q, is_Some (Mem.askPlans h !! q) -> q <> p).
    { intros q Hq. by apply alloc_ne. }
    set (m1' := {| Mem.manager := Mem.manager m1; Mem.plans := s |}).
    set (h4 := Mem.with_knapsacks (insert k1 m1') h3).
    assert (Hsame : Mem.same_for h h4 m2).
    { split; [|split].
      - simpl. rewrite Hmanagers3. simpl. by apply lookup_insert_ne.
      - intros a Ha. simpl. rewrite (Harrays3 a); [done| |].
        + destruct (Mem.plans m2) as [|a2 len2 cap2]; [done|].
          injection Ha as ->. destruct Hslice2 as (_ & arr & Harr & _).
          simpl. by rewrite Harr.
        + intros Ha1. by apply (Harrays a).
      - intros q Hq. simpl. rewrite Hplans3. simpl.
        apply lookup_insert_ne. intros <-. by apply (Hfresh p). }
    assert (Hm2' : Mem.knapsacks h4 !! k2 = Some m2).
    { simpl. rewrite Hknapsacks3. simpl. by rewrite lookup_insert_ne. }
    destruct (same_for_view h h4 k2 m2 Hm2 Hm2' Hok2 Hsame) as (HPlans & Hread & Hok2').
    split; [done|]. split; [done|]. split; [done|]. split; [|split; [done|]].
    + exists m1'. split; [simpl; by rewrite lookup_insert_eq|].
      split; [simpl; rewrite Hmanagers3; simpl; by rewrite lookup_insert_eq|].
      split; [done|]. simpl. change (Mem.cells h4 s) with (Mem.cells h3 s).
      rewrite Hcells3. apply Forall_app. split.
      * change (Mem.cells h2 (Mem.plans m1)) with (Mem.cells h (Mem.plans m1)).
        eapply Forall_impl; [exact Hcells1|]. intros [q|] Hq; [|done].
        simpl in *. rewrite Hplans3. simpl. rewrite lookup_insert_ne; [done|].
        intros <-. by apply (Hfresh p).
      * apply Forall_singleton. simpl. rewrite Hplans3. simpl.
        by rewrite lookup_insert_eq.
    + intros m1'' m2'' Hm1'' Hm2''.
      assert (m2'' = m2) as -> by congruence.
      assert (m1'' = m1') as ->.
      { simpl in Hm1''. rewrite lookup_insert_eq in Hm1''. congruence. }
      split; [done|]. simpl. intros a Ha Ha2.
      destruct (Hnew3 a Ha) as [Hold|Hnone].
      * by apply (Harrays a).
      * destruct (Mem.plans m2) as [|a2 len2 cap2]; [done|].
        injection Ha2 as ->. destruct Hslice2 as (_ & arr & Harr & _).
        simpl in Hnone. congruence.
Qed.
Lemma PutAll_frame (orders : list Order.t) (k1 k2 : Mem.loc) (h : heap) :
  Mem.apart h k1 k2 ->
  exists h',
    Mem.PutAll spare orders k1 h = Some h'
    /\ Mem.Plans k2 h' = Mem.Plans k2 h
    /\ Mem.read k2 h' = Mem.read k2 h
    /\ Mem.apart h' k1 k2.
Proof.
  revert h. induction orders as [|order orders IH]; intros h Hapart.
  - by exists h.
  - pose proof Hapart as (_ & Hok1 & _).
    destruct (Put_returns order k1 h Hok1) as [[h1 outcome] Hput].
    destruct (Put_frame order k1 k2 h h1 outcome Hapart Hput)
      as (HPlans & Hread & Hapart1).
    destruct (IH h1 Hapart1) as (h' & Hall & HPlans' & Hread' & Hapart').
    exists h'. simpl. rewrite Hput. simpl.
    split; [done|]. split; [congruence|]. split; [congruence | done].
Qed.

(** [Clone] gives a knapsack with the same pointers to the same plans and
    a manager of its own in the same state, apart from the first. *)
Lemma Clone_spec (k : Mem.loc) (h : heap) :
  Mem.knapsack_ok h k ->
  exists h1 c,
    Mem.Clone k h = Some (h1, c)
    /\ Mem.Plans c h1 = Mem.Plans k h
    /\ Mem.read c h1 = Mem.read k h
    /\ Mem.Plans k h1 = Mem.Plans k h
    /\ Mem.read k h1 = Mem.read k h
    /\ Mem.apart h1 k c.
Proof.
  intros Hok. pose proof Hok as (m & Hm & [dm Hdm] & Hslice & Hcells).
  unfold Mem.Clone, Mem.DeviceManager_Clone. rewrite Hm. simpl. rewrite Hdm. simpl.
  set (n := Mem.slice_len (Mem.plans m)).
  set (a := Mem.alloc (Mem.arrays h)).
  set (d := Mem.alloc (Mem.managers h)).
  set (c := Mem.alloc (Mem.knapsacks h)).
  set (mc := {| Mem.manager := d; Mem.plans := Mem.Slice a n n |}).
  set (h1 := Mem.with_knapsacks (insert c mc)
               (Mem.with_managers (insert d dm)
                  (Mem.with_arrays
                     (insert a (resize n None (Mem.cells h (Mem.plans m)))) h))).
  exists h1, c. split; [done|].
  assert (Hkc : k <> c) by (apply alloc_ne; by rewrite Hm).
  assert (Hmd : Mem.manager m <> d) by (apply alloc_ne; by rewrite Hdm).
  assert (Hma : forall a', Mem.slice_array (Mem.plans m) = Some a' -> a' <> a).
  { intros a' Ha'. apply alloc_ne. destruct (Mem.plans m) as [|a2 len cap]; [done|].
    injection Ha' as ->. destruct Hslice as (_ & arr & -> & _). done. }
  assert (Hsame : Mem.same_for h h1 m).
  { split; [|split].
    - simpl. by apply lookup_insert_ne.
    - intros a' Ha'. simpl. apply lookup_insert_ne. intros <-. by apply (Hma a).
    - done. }
  assert (Hm1 : Mem.knapsacks h1 !! k = Some m).
  { simpl. by rewrite lookup_insert_ne. }
  destruct (same_for_view h h1 k m Hm Hm1 Hok Hsame) as (HPlans & Hread & Hok1).
  assert (Hmc : Mem.knapsacks h1 !! c = Some mc) by (simpl; apply lookup_insert_eq).
  assert (Hcells_c : Mem.cells h1 (Mem.plans mc) = Mem.cells h (Mem.plans m)).
  { simpl. rewrite lookup_insert_eq. simpl.
    rewrite take_ge by (by rewrite length_resize).
    apply resize_all_alt. by rewrite cells_length. }
  split; [|split; [|split; [done|split; [done|]]]].
  - unfold Mem.Plans. rewrite Hmc, Hm. cbn [mbind option_bind]. by rewrite Hcells_c.
  - unfold Mem.read. rewrite Hmc, Hm. cbn [mbind option_bind].
    assert (Hd : Mem.managers h1 !! Mem.manager mc = Some dm)
      by (simpl; apply lookup_insert_eq).
    rewrite Hd, Hdm. cbn [mbind option_bind]. by rewrite Hcells_c.
  - split; [done|]. split; [done|]. split.
    + exists mc. split; [done|]. split; [simpl; by rewrite lookup_insert_eq|].
      split.
      * simpl. split; [done|]. eexists. split; [apply lookup_insert_eq|].
        by rewrite length_resize.
      * by rewrite Hcells_c.
    + intros m' mc' Hm' Hmc'.
      assert (m' = m) as -> by congruence. assert (mc' = mc) as -> by congruence.
      split; [done|]. intros a' Ha' [= Heq]. by apply (Hma a' Ha').
Qed.

Lemma mapM_deref_snoc (h : heap) (cells : list (option Mem.loc)) (p : Mem.loc)
    (ps : list AskPlan.t) (plan : AskPlan.t) :
  mapM (Mem.deref h) cells = Some ps ->
  Mem.askPlans h !! p = Some plan ->
  mapM (Mem.deref h) (cells ++ [Some p]) = Some (ps ++ [plan]).
Proof.
  rewrite !mapM_Some. intros Hcells Hp. apply Forall2_app; [done|].
  by apply Forall2_cons.
Qed.

(** [Put] through the pointer is [Knapsack.Put] on what the pointer leads
    to. *)
Lemma Put_refines (order : Order.t) (k : Mem.loc) (h h' : heap) outcome
    (knapsack : Knapsack.t DM) :
  Mem.knapsack_ok h k ->
  Mem.read k h = Some knapsack ->
  Mem.Put spare order k h = Some (h', outcome) ->
  Mem.read k h' = Some (Knapsack.Put order knapsack).1
  /\ outcome = (Knapsack.Put order knapsack).2.
Proof.
  intros (m & Hm & [dm Hdm] & Hslice & Hcells) Hread Hput.
  unfold Mem.read in Hread. rewrite Hm in Hread. simpl in Hread.
  rewrite Hdm in Hread. simpl in Hread.
  destruct (mapM (Mem.deref h) (Mem.cells h (Mem.plans m))) as [ps|] eqn:Eps; [|done].
  injection Hread as <-.
  unfold Mem.Put in Hput. rewrite Hm in Hput. simpl in Hput.
  rewrite Hdm in Hput. simpl in Hput.
  unfold Knapsack.Put. simpl.
  destruct (Consume _ _ dm) as [dm' [err|resources]].
  - injection Hput as <- <-. split; [|done].
    unfold Mem.read. simpl. rewrite Hm. simpl. rewrite lookup_insert_eq. simpl.
    change (Mem.cells (Mem.with_managers (insert (Mem.manager m) dm') h) (Mem.plans m))
      with (Mem.cells h (Mem.plans m)).
    rewrite (mapM_ext _ (Mem.deref h)) by done. by rewrite Eps.
  - set (h1 := Mem.with_managers (insert (Mem.manager m) dm') h) in *.
    set (p := Mem.alloc (Mem.askPlans h)) in *.
    set (h2 := Mem.with_askPlans (insert p (Knapsack.planFor order resources)) h1) in *.
    destruct (Mem.append spare (Mem.plans m) p h2) as [h3 s] eqn:Eappend.
    injection Hput as <- <-. split; [|done].
    assert (Hslice' : Mem.slice_ok h2 (Mem.plans m)) by done.
    destruct (append_spec _ _ _ _ _ Hslice' Eappend)
      as (Hplans3 & Hmanagers3 & Hknapsacks3 & Hcells3 & _).
    unfold Mem.read. simpl. rewrite lookup_insert_eq. simpl.
    rewrite Hmanagers3. simpl. rewrite lookup_insert_eq. simpl.
    change (Mem.cells (Mem.with_knapsacks
                         (insert k {| Mem.manager := Mem.manager m; Mem.plans := s |}) h3) s)
      with (Mem.cells h3 s).
    rewrite Hcells3.
    change (Mem.cells h2 (Mem.plans m)) with (Mem.cells h (Mem.plans m)).
    set (h4 := Mem.with_knapsacks _ h3).
    assert (Hold : mapM (Mem.deref h4) (Mem.cells h (Mem.plans m)) = Some ps).
    { rewrite <- Eps. apply mapM_ext_Forall.
      eapply Forall_impl; [exact Hcells|]. intros [q|] Hq; [|done]. simpl in *.
      rewrite Hplans3. simpl. apply lookup_insert_ne. intros <-.
      unfold p in Hq. rewrite alloc_fresh in Hq. by destruct Hq. }
    rewrite (mapM_deref_snoc h4 _ p ps (Knapsack.planFor order resources) Hold).
    + done.
    + simpl. rewrite Hplans3. simpl. apply lookup_insert_eq.
Qed.

(** A knapsack in good order can be read. *)
Lemma read_is_Some (k : Mem.loc) (h : heap) :
  Mem.knapsack_ok h k -> is_Some (Mem.read k h).
Proof.
  intros (m & Hm & [dm Hdm] & _ & Hcells). unfold Mem.read.
  rewrite Hm. cbn [mbind option_bind]. rewrite Hdm. cbn [mbind option_bind].
  destruct (mapM_is_Some_2 (Mem.deref h) (Mem.cells h (Mem.plans m))) as [ps Hps];
    [done|].
  rewrite Hps. by eexists.
Qed.

(** [Put] calls on two knapsacks that are apart, in any order: each
    knapsack ends as its own orders alone would have left it. *)
Lemma PutBoth_frame (steps : list (bool * Order.t)) (k c : Mem.loc) :
  forall (h : heap) (first second : Knapsack.t DM),
    Mem.apart h k c ->
    Mem.read k h = Some first ->
    Mem.read c h = Some second ->
    exists h',
      Mem.PutBoth spare steps k c h = Some h'
      /\ Mem.read k h'
         = Some (PutEach (snd <$> List.filter (fun step => negb step.1) steps) first)
      /\ Mem.read c h'
         = Some (PutEach (snd <$> List.filter (fun step => step.1) steps) second)
      /\ Mem.apart h' k c.
Proof.
  induction steps as [|[[] order] steps IH]; intros h first second Hapart Hfirst Hsecond.
  - by exists h.
  - pose proof (apart_sym _ _ _ Hapart) as Hapart'.
    pose proof Hapart as (_ & _ & Hok & _).
    destruct (Put_returns order c h Hok) as [[h1 outcome] Hput].
    destruct (Put_frame order c k h h1 outcome Hapart' Hput) as (_ & Hread & Hapart1).
    destruct (Put_refines order c h h1 outcome second Hok Hsecond Hput) as [Hread' _].
    destruct (IH h1 first (Knapsack.Put order second).1 (apart_sym _ _ _ Hapart1))
      as (h' & Hall & Hk & Hc & Hapart2); [congruence|done|].
    exists h'. cbn [Mem.PutBoth]. rewrite Hput. by cbn [mbind option_bind].
  - pose proof Hapart as (_ & Hok & _ & _).
    destruct (Put_returns order k h Hok) as [[h1 outcome] Hput].
    destruct (Put_frame order k c h h1 outcome Hapart Hput) as (_ & Hread & Hapart1).
    destruct (Put_refines order k h h1 outcome first Hok Hfirst Hput) as [Hread' _].
    destruct (IH h1 (Knapsack.Put order first).1 second Hapart1)
      as (h' & Hall & Hk & Hc & Hapart2); [done|congruence|].
    exists h'. cbn [Mem.PutBoth]. rewrite Hput. by cbn [mbind option_bind].
Qed.

(** C9, as amended. [Clone] gives a second knapsack with a plan slice and
    a device manager of its own: the two share neither the manager nor the
    backing array of the plans. However many orders are [Put] into the
    clone afterwards, the plan list and the manager of the original are as
    before, and the other way round; and when orders are [Put] into the
    two in any order, each of them ends as its own orders alone make it.
    The plans themselves are not copied: the two slices hold the same
    pointers. *)
Theorem Clone_independent (k : Mem.loc) (h : heap) (Hok : Mem.knapsack_ok h k) :
  exists h1 c knapsack,
    Mem.Clone k h = Some (h1, c)
    /\ c <> k
    /\ Mem.read k h = Some knapsack
    /\ Mem.read c h1 = Some knapsack
    /\ Mem.read k h1 = Some knapsack
    /\ Mem.Plans c h1 = Mem.Plans k h
    /\ Mem.apart h1 k c
    /\ (forall orders, exists h2,
          Mem.PutAll spare orders c h1 = Some h2
          /\ Mem.Plans k h2 = Mem.Plans k h
          /\ Mem.read k h2 = Some knapsack)
    /\ (forall orders, exists h2,
          Mem.PutAll spare orders k h1 = Some h2
          /\ Mem.Plans c h2 = Mem.Plans c h1
          /\ Mem.read c h2 = Some knapsack)
    /\ (forall steps, exists h2,
          Mem.PutBoth spare steps k c h1 = Some h2
          /\ Mem.read k h2
             = Some (PutEach (snd <$> List.filter (fun step => negb step.1) steps)
                       knapsack)
          /\ Mem.read c h2
             = Some (PutEach (snd <$> List.filter (fun step => step.1) steps)
                       knapsack)
          /\ Mem.apart h2 k c).
Proof.
  destruct (Clone_spec k h Hok)
    as (h1 & c & Hclone & HPlans_c & Hread_c & HPlans_k & Hread_k & Hapart).
  destruct (read_is_Some k h Hok) as [knapsack Hread].
  exists h1, c, knapsack. split; [done|].
  split; [by destruct Hapart as [Hne _]|].
  split; [done|]. split; [congruence|]. split; [congruence|]. split; [done|].
  split; [done|]. split; [|split].
  - intros orders.
    destruct (PutAll_frame orders c k h1 (apart_sym _ _ _ Hapart))
      as (h2 & Hall & HPlans & Hread2 & _).
    exists h2. split; [done|]. split; congruence.
  - intros orders.
    destruct (PutAll_frame orders k c h1 Hapart) as (h2 & Hall & HPlans & Hread2 & _).
    exists h2. split; [done|]. split; congruence.
  - intros steps.
    apply (PutBoth_frame steps k c h1 knapsack knapsack Hapart); congruence.
Qed.
End MemFacts.

Lemma Sample_packed_ok : Mem.knapsack_ok Sample.packedHeap Sample.packedKnapsack.
Proof.
  exists {| Mem.manager := 1%positive; Mem.plans := Mem.Slice 1%positive 1 1 |}.
  split; [vm_compute; reflexivity|].
  split; [eexists; vm_compute; reflexivity|].
  split.
  - split; [lia|]. exists [Some 1%positive]. split; vm_compute; reflexivity.
  - apply Forall_forall. intros cell Hcell.
    assert (Hcells : Mem.cells Sample.packedHeap (Mem.Slice 1%positive 1 1)
                     = [Some 1%positive]) by (vm_compute; reflexivity).
    simpl Mem.plans in Hcell. rewrite Hcells in Hcell.
    apply list_elem_of_singleton in Hcell as ->. eexists. vm_compute. reflexivity.
Qed.

Lemma Clone_independent_witness :
  exists h1 c knapsack,
    Mem.Clone Sample.packedKnapsack Sample.packedHeap = Some (h1, c)
    /\ c <> Sample.packedKnapsack
    /\ Mem.read Sample.packedKnapsack Sample.packedHeap = Some knapsack
    /\ exists h2,
         Mem.PutBoth Sample.spare
           [(true, GetOrder (Sample.bid 2 2 4 3 0));
            (false, GetOrder (Sample.bid 3 1 2 2 0));
            (true, GetOrder (Sample.bid 4 1 1 1 0))]
           Sample.packedKnapsack c h1 = Some h2
         /\ Mem.read Sample.packedKnapsack h2
            = Some (PutEach [GetOrder (Sample.bid 3 1 2 2 0)] knapsack)
         /\ Mem.read c h2
            = Some (PutEach [GetOrder (Sample.bid 2 2 4 3 0);
                             GetOrder (Sample.bid 4 1 1 1 0)] knapsack).
Proof.
  destruct (Clone_independent Sample.spare Sample.packedKnapsack Sample.packedHeap
              Sample_packed_ok)
    as (h1 & c & knapsack & Hclone & Hne & Hread & _ & _ & _ & _ & _ & _ & Hboth).
  exists h1, c, knapsack. split; [exact Hclone|]. split; [exact Hne|].
  split; [exact Hread|].
  destruct (Hboth [(true, GetOrder (Sample.bid 2 2 4 3 0));
                   (false, GetOrder (Sample.bid 3 1 2 2 0));
                   (true, GetOrder (Sample.bid 4 1 1 1 0))])
    as (h2 & Hall & Hk & Hc & _).
  exists h2. split; [exact Hall|]. split; [exact Hk | exact Hc].
Defined.

(** C9 as it stands fails for a write to a plan: the clone points to the
    plans of the original, and what [execute] assigns to a winner that it
    reached through the clone shows in the plan list of the original. *)
Lemma Clone_shares_plans_counterexample :
  exists h1 c p,
    Mem.Clone Sample.packedKnapsack Sample.packedHeap = Some (h1, c)
    /\ c <> Sample.packedKnapsack
    /\ Mem.Plans c h1 = Some [Some p]
    /\ Mem.read Sample.packedKnapsack (Mem.prepareWinner 1 "optimus" p h1)
       <> Mem.read Sample.packedKnapsack h1.
Proof.
  eexists _, _, _. split; [vm_compute; reflexivity|].
  split; [done|]. split; [vm_compute; reflexivity|].
  vm_compute. discriminate.
Qed.

(** * Further properties of the engine *)

(** ** Matching orders *)

Lemma List_filter_sublist {A} (f : A -> bool) (l : list A) :
  List.filter f l `sublist_of` l.
Proof.
  induction l as [|x l IH]; simpl; [constructor|].
  destruct (f x); by constructor.
Qed.

Lemma List_filter_idemp {A} (f : A -> bool) (l : list A) :
  List.filter f (List.filter f l) = List.filter f l.
Proof.
  induction l as [|x l IH]; simpl; [done|].
  destruct (f x) eqn:E; simpl; [|done]. by rewrite E, IH.
Qed.

Section MatchingFacts.
Context `{OptimizerOps DM Devices} `{!HardwareOps Devices}.
Variable IsAllowed : Address -> bool.
Variables (m : workerEngine) (devices : Devices).

Lemma Filter_acceptable (deviceManager : DM) (order : Order.t) :
  Filter (filters IsAllowed m deviceManager devices) order = true
  <-> acceptable IsAllowed m deviceManager devices order.
Proof.
  rewrite Filter_true. unfold filters, acceptable.
  rewrite !Forall_cons, Forall_nil.
  rewrite filter_type_true, filter_policy_true, filter_counterparty_true.
  unfold filter_blacklist, filter_netflags, filter_devices. tauto.
Qed.

Lemma elem_of_matchingOrders (deviceManager : DM) (orders : list MarketOrder) order :
  order ∈ matchingOrders IsAllowed m deviceManager devices orders
  <-> order ∈ orders /\ acceptable IsAllowed m deviceManager devices (GetOrder order).
Proof.
  unfold matchingOrders.
  rewrite !list_elem_of_In, filter_In, Filter_acceptable. tauto.
Qed.

(** The matched orders are the orders that meet the six conditions, in
    the order they came in; matching what was matched changes nothing. *)
Theorem matchingOrders_spec (deviceManager : DM) (orders : list MarketOrder) :
  matchingOrders IsAllowed m deviceManager devices orders `sublist_of` orders
  /\ (forall order,
        order ∈ matchingOrders IsAllowed m deviceManager devices orders
        <-> order ∈ orders
            /\ acceptable IsAllowed m deviceManager devices (GetOrder order))
  /\ matchingOrders IsAllowed m deviceManager devices
       (matchingOrders IsAllowed m deviceManager devices orders)
     = matchingOrders IsAllowed m deviceManager devices orders.
Proof.
  split; [apply List_filter_sublist|]. split.
  - apply elem_of_matchingOrders.
  - apply List_filter_idemp.
Qed.

(** When no order meets the conditions, [optimize] returns the empty
    knapsack on the new device manager, whatever the method would have
    done; the empty list of orders is such a case. *)
Theorem optimize_nothing_matched (freeDevices : Devices) (deviceManager : DM)
    (orders : list MarketOrder)
    (Hmanager : newDeviceManager devices freeDevices = inr deviceManager)
    (Hnone : forall order,
       order ∈ orders ->
       ~ acceptable IsAllowed m deviceManager devices (GetOrder order)) :
  optimize m IsAllowed devices freeDevices orders
  = inr (Knapsack.NewKnapsack deviceManager)
  /\ (forall knapsack,
        optimize m IsAllowed devices freeDevices orders = inr knapsack ->
        Knapsack.Plans knapsack = [] /\ Knapsack.Price knapsack = 0).
Proof.
  assert (Hmatched : matchingOrders IsAllowed m deviceManager devices orders = []).
  { apply elem_of_nil_inv. intros order Hin.
    apply elem_of_matchingOrders in Hin as [Hin Hacc]. by apply (Hnone order). }
  assert (Hopt : optimize m IsAllowed devices freeDevices orders
                 = inr (Knapsack.NewKnapsack deviceManager)).
  { unfold optimize. by rewrite Hmanager, Hmatched. }
  split; [exact Hopt|]. intros knapsack. rewrite Hopt. by intros [= <-].
Qed.

End MatchingFacts.

(** ** Prices and plans of a knapsack *)

Section KnapsackSequences.
Context `{DeviceManagerOps DM Devices}.

(** A [Put] that succeeds adds one plan and the price of the order to the
    price of the knapsack; a [Put] that fails leaves plans and price as
    they are, whatever [Consume] did to the manager. *)
Theorem Put_price (order : Order.t) (k : Knapsack.t DM) :
  match Knapsack.Put order k with
  | (k', None) =>
      Knapsack.Price k' = Knapsack.Price k + Order.Price order
      /\ length (Knapsack.Plans k') = S (length (Knapsack.Plans k))
  | (k', Some _) =>
      Knapsack.Price k' = Knapsack.Price k
      /\ Knapsack.Plans k' = Knapsack.Plans k
  end.
Proof.
  unfold Knapsack.Put, Knapsack.Price, Knapsack.Plans.
  destruct (Consume _ _ _) as [dm [err|resources]]; simpl; [done|].
  rewrite SumPrice_app, length_app. simpl. split; lia.
Qed.




End KnapsackSequences.

(** ** Snapshots at the two ends *)

Section SnapshotEdges.
Context `{HardwareOps Devices} `{!MapRange}.

Lemma subtractPlans_all_victims (entries : list (string * AskPlan.t))
    (victims : gmap string AskPlan.t) (free : Resources) :
  (forall id plan, (id, plan) ∈ entries -> is_Some (victims !! id)) ->
  subtractPlans entries victims free = inr free.
Proof.
  induction entries as [|[id plan] entries IH]; intros Hall; [done|]. simpl.
  destruct (Hall id plan) as [victim ->]; [apply elem_of_cons; by left|].
  apply IH. intros id' plan' Hin. apply (Hall id' plan'). apply elem_of_cons. by right.
Qed.


(** With spot plans only, every plan is a victim, nothing is subtracted,
    and the virtual snapshot is the hardware limited to all its
    resources. *)
Theorem snapshots_all_spot (input : optimizationInput Devices)
    (Hall : forall id plan,
       Plans input !! id = Some plan -> AskPlan.GetDuration plan = 0) :
  VictimPlans input = Plans input
  /\ VirtualFreeDevices input
     = match LimitTo (Devices_ input) (AskPlanResources (Devices_ input)) with
       | inl err => inl ("failed to limit virtual free hardware: " +:+ err)
       | inr limited => inr limited
       end.
Proof.
  assert (Hvictims : VictimPlans input = Plans input).
  { apply map_eq. intros id. apply option_eq. intros plan.
    rewrite VictimPlans_lookup. split; [by intros [? _]|].
    intros Hplan. split; [done|]. by apply (Hall id plan). }
  split; [done|]. unfold VirtualFreeDevices, freeDevices. rewrite Hvictims.
  rewrite subtractPlans_all_victims; [done|].
  intros id plan Hin. apply elem_of_range in Hin. by exists plan.
Qed.
End SnapshotEdges.


Lemma snapshots_all_spot_witness :
  VictimPlans Sample.spotInput = Plans Sample.spotInput.
Proof.
  apply snapshots_all_spot.
  intros id plan Hplan. simpl in Hplan.
  apply lookup_singleton_Some in Hplan as [_ <-]. done.
Defined.

(** ** The split at its ends *)

Section SplitPlansEdges.
Context `{MapRange}.

Lemma range_empty {A} : range (∅ : gmap string A) = [].
Proof.
  apply Permutation_nil_r. rewrite (range_entries A ∅). by rewrite map_to_list_empty.
Qed.

(** The split loses and invents nothing: the created and the ignored
    plans together are the candidates, each list in the order of the
    candidates, and the removed plans are existing plans. With no
    existing plan every candidate is created; with no candidate every
    existing plan is removed. *)
Theorem splitPlans_partition (plans : gmap string AskPlan.t)
    (candidates : list AskPlan.t) :
  let '(create, remove, ignore) := splitPlans plans candidates in
  create ++ ignore ≡ₚ candidates
  /\ create `sublist_of` candidates
  /\ ignore `sublist_of` candidates
  /\ remove `sublist_of` (range plans).*2
  /\ (plans = ∅ -> create = candidates /\ remove = [] /\ ignore = [])
  /\ (candidates = [] -> create = [] /\ ignore = [] /\ remove = (range plans).*2).
Proof.
  unfold splitPlans.
  rewrite (foldl_partition (fun plan => orderKey plan ∈ orderKeys (range plans).*2)).
  rewrite (foldl_reject (fun plan => orderKey plan ∈ orderKeys candidates)).
  simpl. split; [|split; [|split; [|split; [|split]]]].
  - rewrite (comm (++)). apply filter_app_complement.
  - apply sublist_filter.
  - apply sublist_filter.
  - apply sublist_filter.
  - intros ->. rewrite range_empty. simpl. split; [|split; [done|]].
    + induction candidates as [|plan candidates IH]; [done|].
      rewrite filter_cons_True; [by f_equal|]. unfold orderKeys. simpl.
      apply not_elem_of_empty.
    + induction candidates as [|plan candidates IH]; [done|].
      rewrite filter_cons_False; [done|]. unfold orderKeys. simpl.
      intros Hin. by apply not_elem_of_empty in Hin.
  - intros ->. split; [done|]. split; [done|].
    induction ((range plans).*2) as [|plan l IH]; [done|].
    rewrite filter_cons_True; [by f_equal|]. unfold orderKeys. simpl.
    apply not_elem_of_empty.
Qed.
End SplitPlansEdges.

(** ** The epoch at its ends *)

Lemma mapEff_preserves {W A B X} (obs : W -> X) (f : A -> Eff W B) (l : list A) (w : W) :
  (forall a w, obs (f a w).1 = obs w) -> obs (mapEff f l w).1 = obs w.
Proof.
  intros Hf. revert w. induction l as [|a l IH]; intros w; [done|].
  simpl. unfold bind. pose proof (Hf a w) as Ha.
  destruct (f a w) as [w1 [err|b]]; [done|]. simpl in Ha.
  pose proof (IH w1) as Hl.
  destruct (mapEff f l w1) as [w2 [err|bs]]; simpl in *; congruence.
Qed.

Lemma wrap_err {W A} (prefix : string) (c : Eff W A) w w' err :
  c w = (w', inl err) -> wrap prefix c w = (w', inl (prefix +:+ err)).
Proof. unfold wrap. by intros ->. Qed.

Lemma wrap_ok {W A} (prefix : string) (c : Eff W A) w w' a :
  c w = (w', inr a) -> wrap prefix c w = (w', inr a).
Proof. unfold wrap. by intros ->. Qed.


Lemma execute_pass_err `{OptimizerOps DM Devices} `{!HardwareOps Devices}
    `{!WorkerOps W Devices} `{!MapRange} (m : workerEngine) (w w' : W) err :
  prelude w = (w', inl err) ->
  forall fuel,
    execute m (S fuel) w = Some (w', Some err)
    /\ execute_restarts m (S fuel) w = Some O.
Proof.
  intros Hprelude fuel.
  assert (Hpass : execute_pass m w = (w', inl err)).
  { unfold execute_pass. by apply bind_err. }
  simpl. by rewrite Hpass.
Qed.

Section EpochEdges.
Context `{OptimizerOps DM Devices} `{!HardwareOps Devices}
        `{!WorkerOps W Devices} `{!MapRange}.
Variable m : workerEngine.

(** The maintenance gate: when the worker cannot tell its next
    maintenance, or when that has begun, the epoch ends with the error
    and makes no further call. *)
Theorem maintenance_gate (fuel : nat) (w : W) :
  match NextMaintenance w with
  | (w1, inl err) =>
      execute m (S fuel) w = Some (w1, Some ("failed to get maintenance: " +:+ err))
  | (w1, inr maintenance) =>
      maintenance <= Now w1 ->
      execute m (S fuel) w = Some (w1, Some "worker is on the maintenance")
  end.
Proof.
  destruct (NextMaintenance w) as [w1 [err|maintenance]] eqn:Ecall.
  - apply execute_pass_err. unfold prelude. apply bind_err. by apply wrap_err.
  - intros Hstarted. apply execute_pass_err. unfold prelude.
    rewrite (bind_ok _ _ w w1 maintenance) by (by apply wrap_ok).
    apply bind_err.
    assert (Hgate : (0 <=? Now w1 - maintenance) = true) by (apply Z.leb_le; lia).
    by rewrite Hgate.
Qed.



(** The loop over the winners never fails: a plan the worker refuses is
    passed over. *)
Lemma createPlans_succeed (winners : list AskPlan.t) (w : W) :
  exists w' done, mapEff (createPlan m) winners w = (w', inr done).
Proof.
  revert w. induction winners as [|plan winners IH]; intros w.
  - by exists w, [].
  - simpl. unfold bind. unfold createPlan at 1.
    destruct (Tagger_Tag w) as [w1 tag]. destruct (CreateAskPlan _ w1) as [w2 reply].
    destruct (IH w2) as (w3 & done & ->). by exists w3, (tt :: done).
Qed.

(** Once there are winners the epoch returns nil, even when the worker
    refuses every plan; without winners it ends with "no plans found",
    after the removals of the replacement strategy, if that was chosen. *)
Theorem manage_outcome (input : optimizationInput Devices)
    (naturalKnapsack virtualKnapsack : Knapsack.t DM) (w w1 : W)
    (winners : list AskPlan.t)
    (Hwet : DryRun (cfg m) = false)
    (Hwinners : selectWinners m input naturalKnapsack virtualKnapsack w
                = (w1, inr winners)) :
  (winners = [] ->
   manage m input naturalKnapsack virtualKnapsack w = (w1, inl "no plans found"))
  /\ (winners <> [] ->
      exists w2, manage m input naturalKnapsack virtualKnapsack w = (w2, inr tt)).
Proof.
  unfold manage. rewrite Hwet. rewrite (bind_ok _ _ _ _ _ Hwinners). split.
  - by intros ->.
  - intros Hsome.
    destruct (createPlans_succeed winners w1) as (w2 & done & Hdone).
    destruct winners as [|plan winners]; [done|].
    cbn [length Nat.eqb]. rewrite (bind_ok _ _ _ _ _ Hdone). by exists w2.
Qed.

(** In dry-run mode an epoch that finds no unsold plan never returns nil,
    and after its prelude it calls nothing but [GetOrderInfo]: whatever
    that call leaves alone is as the prelude left it. *)
Theorem dry_run_changes_nothing {X} (obs : W -> X) (fuel : nat) (w w1 : W)
    (input : optimizationInput Devices)
    (Hdry : DryRun (cfg m) = true)
    (Hread : forall id w, obs (GetOrderInfo id w).1 = obs w)
    (Hprelude : prelude w = (w1, inr input))
    (Hnone : unsoldVictims m (Now w1) (Plans input) = []) :
  exists w2 err,
    execute m (S fuel) w = Some (w2, Some err)
    /\ obs w2 = obs w1.
Proof.
  destruct (execute_pass_no_victims m w w1 input Hprelude Hnone) as [Hrun _].
  rewrite Hrun.
  assert (Horders : forall plans w,
            obs (ordersForPlans (W := W) plans w).1 = obs w).
  { intros plans w0. unfold ordersForPlans. apply mapEff_preserves.
    intros [id plan] w'. pose proof (Hread (GetOrderID plan) w') as Hr.
    by destruct (GetOrderInfo (GetOrderID plan) w') as [w'' [err|order]]. }
  unfold optimizeAndManage.
  unfold bind at 1, lift at 1.
  destruct (FreeDevices input) as [err|naturalFree]; [by exists w1, err|].
  unfold bind at 1, lift at 1.
  destruct (VirtualFreeDevices input) as [err|virtualFree]; [by exists w1, err|].
  unfold bind at 1, wrap.
  pose proof (Horders (VictimPlans input) w1) as Hobs.
  destruct (ordersForPlans (VictimPlans input) w1) as [w2 [err|virtualOrders]];
    simpl in Hobs; [by eexists w2, _|].
  unfold bind at 1, lift at 1.
  destruct (optimize m _ _ naturalFree _) as [err|natural]; [by exists w2, err|].
  unfold bind at 1, lift at 1.
  destruct (optimize m _ _ virtualFree _) as [err|virtual]; [by exists w2, err|].
  unfold manage. rewrite Hdry. unfold throw. by eexists w2, _.
Qed.

(** The unsold plans that are removed are named once each, and they are
    plans of the worker; with no plan at all nothing is removed and the
    worker is not called. *)
Theorem unsoldVictims_distinct (now : Z) (plans : gmap string AskPlan.t) :
  NoDup (unsoldVictims m now plans)
  /\ (forall id, id ∈ unsoldVictims m now plans -> is_Some (plans !! id))
  /\ (length (unsoldVictims m now plans) <= size plans)%nat
  /\ (plans = ∅ -> forall w : W, tryRemoveUnsoldPlans m plans w = (w, inr [])).
Proof.
  assert (Hvictims : unsoldVictims m now plans `sublist_of` (range plans).*1).
  { unfold unsoldVictims.
    rewrite (foldl_collect_keys
               (fun plan => StaleThreshold (cfg m) <=? AskPlan.UnsoldDuration now plan)).
    simpl. apply fmap_sublist. apply sublist_filter. }
  split; [|split; [|split]].
  - eapply sublist_NoDup; [apply (NoDup_fst_range plans) | exact Hvictims].
  - intros id Hid. apply elem_of_unsoldVictims in Hid as (plan & Hplan & _).
    by exists plan.
  - apply sublist_length in Hvictims. rewrite length_fmap in Hvictims.
    rewrite <- length_map_to_list. by rewrite <- (range_entries _ plans).
  - intros -> w. unfold tryRemoveUnsoldPlans, unsoldVictims.
    by rewrite range_empty.
Qed.

(** The orders fetched for plans: one for each plan, each the answer of
    the market to the order id of its plan; for no plan the market is not
    asked; a failure names the order and the plan. *)
Theorem ordersForPlans_spec (plans : gmap string AskPlan.t) (w : W) :
  match ordersForPlans plans w with
  | (w', inr orders) =>
      length orders = size plans
      /\ Forall2
           (fun entry order =>
              exists w1 w2,
                GetOrderInfo (GetOrderID entry.2) w1 = (w2, inr (GetOrder order)))
           (range plans) orders
  | (w', inl err) =>
      exists id plan cause,
        plans !! id = Some plan
        /\ err = "failed to get order `" +:+ orderKey plan +:+ "` for `"
                   +:+ id +:+ "`: " +:+ cause
  end
  /\ (plans = ∅ -> ordersForPlans plans w = (w, inr [])).
Proof.
  split.
  - unfold ordersForPlans.
    assert (Hlen : length (range plans) = size plans).
    { rewrite <- length_map_to_list. by rewrite <- (range_entries _ plans). }
    rewrite <- Hlen.
    assert (Hin : forall entry, entry ∈ range plans -> plans !! entry.1 = Some entry.2).
    { intros [id plan] Hentry. by apply elem_of_range. }
    revert w Hin. clear Hlen.
    induction (range plans) as [|[id plan] entries IH]; intros w Hin.
    + simpl. split; [done | constructor].
    + simpl. unfold bind at 1.
      destruct (GetOrderInfo (GetOrderID plan) w) as [w1 [cause|order]] eqn:Eget.
      * exists id, plan, cause. split; [|done].
        apply (Hin (id, plan)). apply elem_of_cons. by left.
      * unfold bind at 1.
        assert (Hrest : forall entry, entry ∈ entries ->
                          plans !! entry.1 = Some entry.2).
        { intros entry Hentry. apply Hin. apply elem_of_cons. by right. }
        specialize (IH w1 Hrest).
        destruct (mapEff _ entries w1) as [w2 [err|orders]]; [done|].
        destruct IH as [Hlength Hall]. simpl. split; [by f_equal|].
        constructor; [|done]. simpl. by exists w, w1.
  - intros ->. unfold ordersForPlans. by rewrite range_empty.
Qed.

(** The current price counts every plan once: a worker without plans has
    the price 0, and a plan under a new id adds its price. *)
Theorem optimizationInput_Price_insert (input : optimizationInput Devices)
    (id : string) (plan : AskPlan.t) (Hnew : Plans input !! id = None) :
  optimizationInput_Price
    {| Orders := Orders input; Devices_ := Devices_ input;
       Plans := <[id := plan]> (Plans input) |}
  = optimizationInput_Price input + AskPlan.Price plan
  /\ optimizationInput_Price
       {| Orders := Orders input; Devices_ := Devices_ input; Plans := ∅ |} = 0.
Proof.
  rewrite !optimizationInput_Price_sum. simpl. split.
  - rewrite (SumPrice_Permutation _ (plan :: (map_to_list (Plans input)).*2)).
    + simpl. lia.
    + by rewrite (map_to_list_insert _ _ _ Hnew).
  - by rewrite map_to_list_empty.
Qed.
End EpochEdges.

Lemma optimize_nothing_matched_witness :
  optimize (Sample.engine false 5 1000) (fun _ => true) (Sample.machine 8 16)
    (Sample.machine 4 8) [Sample.bid 3 16 32 50 0]
  = inr (Knapsack.NewKnapsack
           {| Sample.total := Sample.machine 8 16; Sample.free := Sample.machine 4 8 |}).
Proof.
  apply optimize_nothing_matched.
  - reflexivity.
  - intros order Hin. apply list_elem_of_singleton in Hin as ->.
    intros (_ & _ & _ & _ & _ & Hcontains). vm_compute in Hcontains. discriminate.
Defined.


Lemma Sample_spot_winners :
  selectWinners (Sample.engine false 5 1000) Sample.spotInput
    Sample.spotNatural Sample.spotVirtual Sample.spotWorld
  = (Sample.tick ∅ Sample.spotWorld, inr (Knapsack.plans Sample.spotVirtual)).
Proof. vm_compute. reflexivity. Qed.

Lemma manage_outcome_witness :
  exists w2,
    manage (Sample.engine false 5 1000) Sample.spotInput
      Sample.spotNatural Sample.spotVirtual Sample.spotWorld
    = (w2, inr tt).
Proof.
  apply (manage_outcome (Sample.engine false 5 1000) Sample.spotInput
           Sample.spotNatural Sample.spotVirtual Sample.spotWorld
           (Sample.tick ∅ Sample.spotWorld) (Knapsack.plans Sample.spotVirtual)
           eq_refl Sample_spot_winners).
  discriminate.
Defined.

Lemma Sample_GetOrderInfo_reads (id : Z) (w : Sample.World) :
  Sample.askPlans (GetOrderInfo id w).1 = Sample.askPlans w.
Proof. simpl. by destruct (List.find _ _). Qed.

Lemma dry_run_changes_nothing_witness :
  exists w2 err,
    execute (Sample.engine true 5 1000) 1 Sample.spotWorld = Some (w2, Some err)
    /\ Sample.askPlans w2 = Sample.askPlans Sample.spotWorld.
Proof.
  apply (dry_run_changes_nothing (Sample.engine true 5 1000) Sample.askPlans 0
           Sample.spotWorld Sample.spotWorld Sample.spotInput
           eq_refl Sample_GetOrderInfo_reads).
  - vm_compute. reflexivity.
  - vm_compute. reflexivity.
Defined.

Lemma optimizationInput_Price_insert_witness :
  optimizationInput_Price
    {| Orders := Orders Sample.spotInput; Devices_ := Devices_ Sample.spotInput;
       Plans := <["b" := Sample.plan "b" 3 1 1 4 0 100]> (Plans Sample.spotInput) |}
  = optimizationInput_Price Sample.spotInput + 4.
Proof.
  apply (optimizationInput_Price_insert Sample.spotInput "b"
           (Sample.plan "b" 3 1 1 4 0 100)).
  vm_compute. reflexivity.
Defined.

(** ** Choosing a method by its tag *)

Lemma optimizationFactory_Some (ty : string) (factory : ModelFactory) :
  optimizationFactory ty = Some factory ->
  ty ∈ ["batch"; "greedy"; "genetic"; "branch_bound"].
Proof.
  unfold optimizationFactory. repeat case_decide; subst; intros Hsome; try done.
  - apply elem_of_cons. by left.
  - apply elem_of_cons. right. apply elem_of_cons. by left.
  - do 2 (apply elem_of_cons; right). apply elem_of_cons. by left.
  - do 3 (apply elem_of_cons; right). apply elem_of_cons. by left.
Qed.

(** Reading the method from the configuration: it succeeds only for one
    of the tags batch, greedy, genetic and branch_bound, with the factory
    of that tag holding what the document gives; any other tag is the
    error "unknown optimization model" with the tag, and every failure
    leaves the receiver as it was. *)
Theorem UnmarshalYAML_spec (Config : Type) (typeofInterface : error + string)
    (unmarshal : ModelFactory -> error + Config) (m : option (ModelFactory * Config)) :
  let '(m', err) := UnmarshalYAML Config typeofInterface unmarshal m in
  (err = None ->
   exists ty factory config,
     typeofInterface = inr ty
     /\ ty ∈ ["batch"; "greedy"; "genetic"; "branch_bound"]
     /\ optimizationFactory ty = Some factory
     /\ unmarshal factory = inr config
     /\ m' = Some (factory, config))
  /\ (err <> None -> m' = m)
  /\ (forall ty,
        typeofInterface = inr ty ->
        ty ∉ ["batch"; "greedy"; "genetic"; "branch_bound"] ->
        err = Some ("unknown optimization model: " +:+ ty))
  /\ optimizationFactory "batch" = Some BatchModelFactory
  /\ optimizationFactory "greedy" = Some GreedyLinearRegressionModelFactory
  /\ optimizationFactory "genetic" = Some GeneticModelFactory
  /\ optimizationFactory "branch_bound" = Some BranchBoundModelFactory.
Proof.
  unfold UnmarshalYAML.
  destruct typeofInterface as [err|ty].
  { repeat split; try done. }
  destruct (optimizationFactory ty) as [factory|] eqn:Efactory.
  - pose proof (optimizationFactory_Some ty factory Efactory) as Hknown.
    destruct (unmarshal factory) as [err|config] eqn:Eread.
    + repeat split; try done. intros ty' [= <-] Hunknown. done.
    + repeat split; try done.
      * intros _. by exists ty, factory, config.
      * intros ty' [= <-] Hunknown. done.
  - repeat split; try done. by intros ty' [= <-] _.
Qed.

(** ** Knapsacks on one manager *)

Section SharedManager.
Context `{DeviceManagerOps DM Devices}.
Variable spare : nat -> nat.

(** [NewKnapsack] takes the pointer to the device manager as it is: two
    knapsacks made on one manager are empty knapsacks on the same
    manager, and what a [Put] into the first consumes is gone for the
    second as well. *)
Theorem NewKnapsack_shares_manager (d : Mem.loc) (h : Mem.heap DM) (dm : DM)
    (order : Order.t) (Hmanager : Mem.managers h !! d = Some dm) :
  let '(h1, k1) := Mem.NewKnapsack d h in
  let '(h2, k2) := Mem.NewKnapsack d h1 in
  k1 <> k2
  /\ Mem.read k1 h2 = Some (Knapsack.NewKnapsack dm)
  /\ Mem.read k2 h2 = Some (Knapsack.NewKnapsack dm)
  /\ exists h3 outcome,
       Mem.Put spare order k1 h2 = Some (h3, outcome)
       /\ Mem.read k2 h3
          = Some (Knapsack.NewKnapsack
                    (Consume (Order.Benchmarks order) (Order.Netflags order) dm).1).
Proof.
  unfold Mem.NewKnapsack.
  set (k1 := Mem.alloc (Mem.knapsacks h)).
  set (m0 := {| Mem.manager := d; Mem.plans := Mem.NilSlice |}).
  set (h1 := Mem.with_knapsacks (insert k1 m0) h).
  set (k2 := Mem.alloc (Mem.knapsacks h1)).
  set (h2 := Mem.with_knapsacks (insert k2 m0) h1).
  assert (Hne : k1 <> k2).
  { apply alloc_ne. simpl. rewrite lookup_insert_eq. by eexists. }
  assert (Hk1 : Mem.knapsacks h2 !! k1 = Some m0).
  { simpl. rewrite lookup_insert_ne by done. apply lookup_insert_eq. }
  assert (Hk2 : Mem.knapsacks h2 !! k2 = Some m0) by (simpl; apply lookup_insert_eq).
  assert (Hd : Mem.managers h2 !! Mem.manager m0 = Some dm) by done.
  split; [done|]. split; [|split].
  - unfold Mem.read. rewrite Hk1. cbn [mbind option_bind]. by rewrite Hd.
  - unfold Mem.read. rewrite Hk2. cbn [mbind option_bind]. by rewrite Hd.
  - unfold Mem.Put. rewrite Hk1. cbn [mbind option_bind]. rewrite Hd.
    cbn [mbind option_bind].
    destruct (Consume _ _ dm) as [dm' [err|resources]]; simpl.
    + eexists _, _. split; [done|].
      unfold Mem.read. simpl. rewrite lookup_insert_eq. simpl.
      by rewrite lookup_insert_eq.
    + eexists _, _. split; [done|].
      unfold Mem.read. simpl. rewrite lookup_insert_ne by done.
      rewrite lookup_insert_eq. simpl. by rewrite lookup_insert_eq.
Qed.
End SharedManager.

Lemma NewKnapsack_shares_manager_witness :
  let '(h1, k1) := Mem.NewKnapsack 1%positive Sample.heap0 in
  let '(h2, k2) := Mem.NewKnapsack 1%positive h1 in
  exists h3 outcome,
    Mem.Put Sample.spare (GetOrder (Sample.bid 1 4 8 7 0)) k1 h2 = Some (h3, outcome)
    /\ Mem.read k2 h3
       = Some (Knapsack.NewKnapsack
                 {| Sample.total := Sample.machine 8 16;
                    Sample.free := Sample.machine 4 8 |}).
Proof.
  pose proof (NewKnapsack_shares_manager Sample.spare 1%positive Sample.heap0
                {| Sample.total := Sample.machine 8 16;
                   Sample.free := Sample.machine 8 16 |}
                (GetOrder (Sample.bid 1 4 8 7 0)) eq_refl) as Hshared.
  destruct (Mem.NewKnapsack 1%positive Sample.heap0) as [h1 k1].
  destruct (Mem.NewKnapsack 1%positive h1) as [h2 k2].
  destruct Hshared as (_ & _ & _ & h3 & outcome & Hput & Hread).
  by exists h3, outcome.
Defined.

Lemma Filter_short_circuit_witness :
  Filter [fun _ => true; fun order => Order.Price order =? 0; fun _ => true]
    (GetOrder (Sample.bid 1 4 8 7 0)) = false
  /\ Filter_calls [fun _ => true; fun order => Order.Price order =? 0; fun _ => true]
       (GetOrder (Sample.bid 1 4 8 7 0)) = 2%nat.
Proof.
  apply (Filter_short_circuit [fun _ => true] [fun _ => true]
           (fun order => Order.Price order =? 0) (GetOrder (Sample.bid 1 4 8 7 0))).
  - by constructor.
  - reflexivity.
Defined.

(** ** The command line *)

(** The output is JSON exactly when the flag or the configuration says
    so and they are not both empty: a configuration that asks for JSON is
    not overridden by a flag that asks for something else. *)
Theorem isSimpleFormat_spec (OutputModeJSON outputModeFlag cfgOutputFormat : string) :
  (Cli.isSimpleFormat OutputModeJSON outputModeFlag cfgOutputFormat = false
   <-> (outputModeFlag = OutputModeJSON \/ cfgOutputFormat = OutputModeJSON)
       /\ ~ (outputModeFlag = "" /\ cfgOutputFormat = ""))
  /\ (OutputModeJSON <> "" ->
      Cli.isSimpleFormat OutputModeJSON outputModeFlag OutputModeJSON = false)
  /\ Cli.isSimpleFormat OutputModeJSON "" "" = true.
Proof.
  unfold Cli.isSimpleFormat. split; [|split].
  - destruct (bool_decide (outputModeFlag = "")) eqn:Ef,
      (bool_decide (cfgOutputFormat = "")) eqn:Ec,
      (bool_decide (outputModeFlag = OutputModeJSON)) eqn:Efj,
      (bool_decide (cfgOutputFormat = OutputModeJSON)) eqn:Ecj; simpl;
    try apply bool_decide_eq_true in Ef; try apply bool_decide_eq_false in Ef;
    try apply bool_decide_eq_true in Ec; try apply bool_decide_eq_false in Ec;
    try apply bool_decide_eq_true in Efj; try apply bool_decide_eq_false in Efj;
    try apply bool_decide_eq_true in Ecj; try apply bool_decide_eq_false in Ecj;
    split; try done; try tauto.
  - intros Hjson.
    rewrite (bool_decide_eq_false_2 (OutputModeJSON = "")) by done.
    rewrite andb_false_r.
    rewrite (bool_decide_eq_true_2 (OutputModeJSON = OutputModeJSON)) by done.
    by rewrite orb_true_r.
  - done.
Qed.

(** The node address is never empty: the flag comes first, then the
    configuration, then the default localhost:15030. *)
Theorem nodeAddress_spec (nodeAddressFlag cfgNodeAddr : string) :
  Cli.nodeAddress nodeAddressFlag cfgNodeAddr <> ""
  /\ (nodeAddressFlag <> "" -> Cli.nodeAddress nodeAddressFlag cfgNodeAddr = nodeAddressFlag)
  /\ (nodeAddressFlag = "" -> cfgNodeAddr <> "" ->
      Cli.nodeAddress nodeAddressFlag cfgNodeAddr = cfgNodeAddr)
  /\ (nodeAddressFlag = "" -> cfgNodeAddr = "" ->
      Cli.nodeAddress nodeAddressFlag cfgNodeAddr = "localhost:15030").
Proof.
  unfold Cli.nodeAddress. repeat case_decide; repeat split; try done.
Qed.

(** The keystore path is the expansion of the flag, else of the
    configuration; the default directory is asked for only when both are
    empty, and only then can its error come up. *)
Theorem keystorePath_spec (GetDefaultKeyStoreDir : error + string)
    (Expand : string -> error + string) (keystoreFlag cfgKeystore : string) :
  (keystoreFlag <> "" ->
   Cli.keystorePath GetDefaultKeyStoreDir Expand keystoreFlag cfgKeystore
   = Expand keystoreFlag)
  /\ (keystoreFlag = "" -> cfgKeystore <> "" ->
      Cli.keystorePath GetDefaultKeyStoreDir Expand keystoreFlag cfgKeystore
      = Expand cfgKeystore)
  /\ (keystoreFlag = "" -> cfgKeystore = "" ->
      Cli.keystorePath GetDefaultKeyStoreDir Expand keystoreFlag cfgKeystore
      = match GetDefaultKeyStoreDir with
        | inl err => inl ("cannot obtain default keystore dir: " +:+ err)
        | inr dir => Expand dir
        end).
Proof.
  unfold Cli.keystorePath. repeat case_decide; repeat split; try done.
  intros _ _. by destruct GetDefaultKeyStoreDir.
Qed.

(** ** Random helpers of the genetic engine *)

Section RandomFacts.
Context `{RandOps R}.

Lemma list_insert_elem_of_inv {A} (l : list A) (i : nat) (x y : A) :
  y ∈ <[i:=x]> l -> y = x \/ y ∈ l.
Proof.
  revert i. induction l as [|z l IH]; intros [|i] Hy; simpl in Hy; auto.
  - apply elem_of_cons in Hy as [->|Hy]; [by left|].
    right. by apply list_elem_of_further.
  - apply elem_of_cons in Hy as [->|Hy]; [right; apply list_elem_of_here|].
    destruct (IH i Hy) as [->|Hin]; [by left|].
    right. by apply list_elem_of_further.
Qed.

Lemma NoDup_list_insert {A} (l : list A) (i : nat) (x : A) :
  NoDup l -> x ∉ l -> NoDup (<[i:=x]> l).
Proof.
  revert i. induction l as [|z l IH]; intros [|i] Hnodup Hx; simpl; auto.
  - apply NoDup_cons in Hnodup as [Hz Hnodup].
    apply NoDup_cons. split; [|done].
    intros Hin. apply Hx. by apply list_elem_of_further.
  - apply NoDup_cons in Hnodup as [Hz Hnodup].
    apply NoDup_cons. split.
    + intros Hin. destruct (list_insert_elem_of_inv _ _ _ _ Hin) as [->|Hin'].
      * apply Hx. apply list_elem_of_here.
      * done.
    + apply IH; [done|]. intros Hin. apply Hx. by apply list_elem_of_further.
Qed.

(** The second loop of [randomInts], from turn [i] on for [n] turns. *)
Lemma randomInts_fold (k min : Z) (n : nat) :
  forall (i : Z) (ints : list Z) (rng : R),
    0 <= k <= i -> - 2 ^ 63 <= min ->
    i + Z.of_nat n < 2 ^ 63 -> min + i + Z.of_nat n <= 2 ^ 63 ->
    length ints = Z.to_nat k -> NoDup ints ->
    Forall (fun x => min <= x < min + i) ints ->
    let result := foldl (randomInts_step k min) (ints, rng) (seqZ i (Z.of_nat n)) in
    length result.1 = Z.to_nat k /\ NoDup result.1
    /\ Forall (fun x => min <= x < min + i + Z.of_nat n) result.1.
Proof.
  induction n as [|n IH]; intros i ints rng Hk Hmin Hturn Hmax Hlen Hnodup Hrange.
  - simpl. rewrite Z.add_0_r. done.
  - rewrite seqZ_cons by lia. rewrite Nat2Z.inj_succ, Z.pred_succ.
    cbn [foldl].
    assert (Hstep : exists ints' rng',
               randomInts_step k min (ints, rng) i = (ints', rng')
               /\ length ints' = Z.to_nat k /\ NoDup ints'
               /\ Forall (fun x => min <= x < min + Z.succ i) ints').
    { unfold randomInts_step.
      rewrite (to_int64_id (i + 1)) by lia.
      rewrite (to_int64_id (i + min)) by lia.
      pose proof (Intn_range (i + 1) rng ltac:(lia)) as Hj.
      destruct (Intn (i + 1) rng) as [j rng']. simpl in Hj.
      assert (Hfresh : (i + min) ∉ ints).
      { intros Hin. rewrite Forall_forall in Hrange. apply Hrange in Hin. lia. }
      destruct (j <? k) eqn:Ejk.
      - eexists _, _. split; [done|]. split; [by rewrite length_insert|].
        split; [by apply NoDup_list_insert|].
        apply Forall_forall. intros x Hx.
        destruct (list_insert_elem_of_inv _ _ _ _ Hx) as [->|Hin]; [lia|].
        rewrite Forall_forall in Hrange. apply Hrange in Hin. lia.
      - eexists _, _. split; [done|]. split; [done|]. split; [done|].
        eapply Forall_impl; [exact Hrange|]. intros x Hx. simpl in *. lia. }
    destruct Hstep as (ints' & rng' & -> & Hlen' & Hnodup' & Hrange').
    replace (min + i + Z.succ (Z.of_nat n)) with (min + Z.succ i + Z.of_nat n) by lia.
    apply IH; try lia; auto.
Qed.

(** The slice that the first loop of [randomInts] fills. *)
Lemma randomInts_first_loop (k min : Z) (Hk : 0 <= k)
    (Hmin : - 2 ^ 63 <= min) (Hmax : min + k <= 2 ^ 63) :
  (fun i => to_int64 (i + min)) <$> seqZ 0 k = seqZ min k.
Proof.
  replace (seqZ min k) with (seqZ (min + 0) k) by (f_equal; lia).
  rewrite <- fmap_add_seqZ.
  apply Forall_fmap_ext, Forall_forall. intros i Hi.
  apply elem_of_seqZ in Hi. rewrite to_int64_id by lia. lia.
Qed.

(** Without a draw [randomInts] counts up from [min]. *)
Lemma randomInts_counts (k min max : Z) (rng : R)
    (Hk : 0 <= k) (Hspan : to_int64 (max - min) <= k)
    (Hmin : - 2 ^ 63 <= min) (Hmax : min + k <= 2 ^ 63) :
  randomInts k min max rng = Some (seqZ min k, rng).
Proof.
  unfold randomInts.
  destruct (k <? 0) eqn:Ek; [lia|].
  rewrite (seqZ_nil k) by lia. cbn [foldl].
  by rewrite randomInts_first_loop.
Qed.

(** [randomInts k 0 n], as [sampleInts] calls it: [k] different indexes
    below [n]. *)
Lemma randomInts_indexes (k n : Z) (rng : R) (Hk : 0 <= k <= n) (Hn : n < 2 ^ 63) :
  exists idxs rng',
    randomInts k 0 n rng = Some (idxs, rng')
    /\ Z.of_nat (length idxs) = k /\ NoDup idxs
    /\ forall idx, idx ∈ idxs -> 0 <= idx < n.
Proof.
  unfold randomInts.
  destruct (k <? 0) eqn:Ek; [lia|].
  rewrite Z.sub_0_r, (to_int64_id n) by lia.
  rewrite randomInts_first_loop by lia.
  pose proof (randomInts_fold k 0 (Z.to_nat (n - k)) k (seqZ 0 k) rng) as Hfold.
  rewrite Z2Nat.id in Hfold by lia.
  destruct Hfold as (Hlen & Hnodup & Hrange); try lia.
  - apply length_seqZ.
  - apply NoDup_seqZ.
  - apply Forall_forall. intros x Hx. apply elem_of_seqZ in Hx. lia.
  - destruct (foldl _ _ _) as [idxs rng'] eqn:Efold. simpl in *.
    exists idxs, rng'. split; [done|]. split; [lia|]. split; [done|].
    intros x Hx. rewrite Forall_forall in Hrange. apply Hrange in Hx. lia.
Qed.

(** [randomInts k min max] for [k] not above the size of the range:
    [k] different numbers, all of them at least [min] and below [max]. *)
Theorem randomInts_spec (k min max : Z) (rng : R)
    (Hk : 0 <= k <= max - min)
    (Hmin : - 2 ^ 63 <= min) (Hmax : max < 2 ^ 63) (Hspan : max - min < 2 ^ 63) :
  exists ints rng',
    randomInts k min max rng = Some (ints, rng')
    /\ Z.of_nat (length ints) = k /\ NoDup ints
    /\ forall x, x ∈ ints -> min <= x < max.
Proof.
  unfold randomInts.
  destruct (k <? 0) eqn:Ek; [lia|].
  rewrite (to_int64_id (max - min)) by lia.
  rewrite randomInts_first_loop by lia.
  pose proof (randomInts_fold k min (Z.to_nat (max - min - k)) k (seqZ min k) rng)
    as Hfold.
  rewrite Z2Nat.id in Hfold by lia.
  destruct Hfold as (Hlen & Hnodup & Hrange); try lia.
  - apply length_seqZ.
  - apply NoDup_seqZ.
  - apply Forall_forall. intros x Hx. apply elem_of_seqZ in Hx. lia.
  - destruct (foldl _ _ _) as [ints rng'] eqn:Efold. simpl in *.
    exists ints, rng'. split; [done|]. split; [lia|]. split; [done|].
    intros x Hx. rewrite Forall_forall in Hrange. apply Hrange in Hx. lia.
Qed.

(** When [k] is above the size of the range, [randomInts] draws nothing
    and returns [min], [min + 1], ..., [min + k - 1]: [max] is among them,
    which is outside of the range. *)
Theorem randomInts_short_range (k min max : Z) (rng : R)
    (Hspan : 0 <= max - min < k) (Hk : k < 2 ^ 63)
    (Hmin : - 2 ^ 63 <= min) (Hmax : min + k <= 2 ^ 63) :
  exists ints,
    randomInts k min max rng = Some (ints, rng)
    /\ ints = seqZ min k /\ max ∈ ints.
Proof.
  exists (seqZ min k). split; [|split; [done|]].
  - apply randomInts_counts; try lia. rewrite to_int64_id by lia. lia.
  - apply elem_of_seqZ. lia.
Qed.


(** The elements of [l] at different places are a part of [l]. *)
Lemma lookups_submseteq (l : list Z) (places : list nat) :
  NoDup places -> Forall (fun j => (j < length l)%nat) places ->
  (fun j => default 0 (l !! j)) <$> places ⊆+ l.
Proof.
  intros Hnodup Hplaces.
  assert (Hall : (fun j => default 0 (l !! j)) <$> seq 0 (length l) = l).
  { apply list_eq. intros j. rewrite list_lookup_fmap.
    destruct (l !! j) as [x|] eqn:Ej.
    - rewrite lookup_seq_lt by (by eapply lookup_lt_Some). simpl. by rewrite Ej.
    - rewrite lookup_seq_ge; [done|]. by apply lookup_ge_None. }
  assert (Hsub : (fun j => default 0 (l !! j)) <$> places
                 ⊆+ (fun j => default 0 (l !! j)) <$> seq 0 (length l)).
  { apply fmap_submseteq.
    apply NoDup_submseteq; [done|]. intros j Hj.
    rewrite Forall_forall in Hplaces. apply Hplaces in Hj.
    apply elem_of_seq. lia. }
  by rewrite Hall in Hsub.
Qed.

(** [sampleInts] fails exactly when more is asked for than the slice
    holds, and then the generator is not touched. *)
Theorem sampleInts_error_iff (ints : list Z) (k : Z) (rng : R) :
  (Z.of_nat (length ints) < k ->
   exists err, sampleInts ints k rng = Some (inl err, rng))
  /\ ((exists err rng', sampleInts ints k rng = Some (inl err, rng'))
      -> Z.of_nat (length ints) < k).
Proof.
  unfold sampleInts. split.
  - intros Hk. destruct (Z.of_nat (length ints) <? k) eqn:Ek; [|lia]. by eexists.
  - intros (err & rng' & Herr).
    destruct (Z.of_nat (length ints) <? k) eqn:Ek; [lia|].
    destruct (randomInts k 0 (Z.of_nat (length ints)) rng) as [[idxs rng'']|];
      [|discriminate].
    simpl in Herr. destruct (mapM (index ints) idxs); discriminate.
Qed.

(** [sampleInts] samples without replacement: [k] elements from [k]
    different places of the slice, so that the sample is a part of the
    slice as a multiset. *)
Theorem sampleInts_spec (ints : list Z) (k : Z) (rng : R)
    (Hk : 0 <= k <= Z.of_nat (length ints))
    (Hlen : Z.of_nat (length ints) < 2 ^ 63) :
  exists sample idxs rng',
    sampleInts ints k rng = Some (inr (sample, idxs), rng')
    /\ Z.of_nat (length sample) = k /\ Z.of_nat (length idxs) = k
    /\ NoDup idxs
    /\ (forall i idx, idxs !! i = Some idx ->
          0 <= idx < Z.of_nat (length ints)
          /\ sample !! i = ints !! Z.to_nat idx)
    /\ sample ⊆+ ints.
Proof.
  unfold sampleInts.
  destruct (Z.of_nat (length ints) <? k) eqn:Ek; [lia|].
  destruct (randomInts_indexes k (Z.of_nat (length ints)) rng)
    as (idxs & rng' & -> & Hidxs & Hnodup & Hrange); try lia.
  cbn [mbind option_bind].
  set (sample := (fun idx => default 0 (ints !! Z.to_nat idx)) <$> idxs).
  assert (Hsample : mapM (index ints) idxs = Some sample).
  { apply mapM_Some_2, Forall2_fmap_r, Forall_Forall2_diag, Forall_forall.
    intros idx Hidx. apply Hrange in Hidx. unfold compose, index.
    destruct (idx <? 0) eqn:E0; [lia|].
    destruct (lookup_lt_is_Some_2 ints (Z.to_nat idx)) as [x Hx]; [lia|].
    by rewrite Hx. }
  rewrite Hsample. cbn [mbind option_bind].
  exists sample, idxs, rng'. split; [done|].
  split; [unfold sample; by rewrite length_fmap|]. split; [done|]. split; [done|].
  split.
  - intros i idx Hi.
    assert (Hin : idx ∈ idxs) by (by eapply list_elem_of_lookup_2).
    apply Hrange in Hin. split; [lia|].
    unfold sample. rewrite list_lookup_fmap, Hi. simpl.
    destruct (lookup_lt_is_Some_2 ints (Z.to_nat idx)) as [x Hx]; [lia|].
    by rewrite Hx.
  - unfold sample.
    replace ((fun idx => default 0 (ints !! Z.to_nat idx)) <$> idxs)
      with ((fun j => default 0 (ints !! j)) <$> (Z.to_nat <$> idxs))
      by (by rewrite <- list_fmap_compose).
    apply lookups_submseteq.
    + apply NoDup_fmap_2_strong; [|done].
      intros x y Hx Hy Hxy. apply Hrange in Hx. apply Hrange in Hy. lia.
    + apply Forall_fmap, Forall_forall. intros idx Hidx.
      apply Hrange in Hidx. simpl. lia.
Qed.

(** Asked for as many elements as the slice holds, [sampleInts] returns
    the slice itself, in its order, and draws nothing. *)
Theorem sampleInts_all (ints : list Z) (rng : R)
    (Hlen : Z.of_nat (length ints) < 2 ^ 63) :
  sampleInts ints (Z.of_nat (length ints)) rng
  = Some (inr (ints, seqZ 0 (Z.of_nat (length ints))), rng).
Proof.
  unfold sampleInts. rewrite Z.ltb_irrefl.
  rewrite randomInts_counts; try lia.
  2: { rewrite Z.sub_0_r, to_int64_id; lia. }
  cbn [mbind option_bind].
  assert (Hsample : mapM (index ints) (seqZ 0 (Z.of_nat (length ints))) = Some ints).
  { apply mapM_Some_2, Forall2_same_length_lookup_2.
    - rewrite length_seqZ. lia.
    - intros i idx x Hidx Hx. apply lookup_seqZ in Hidx as [-> _].
      unfold index. destruct (0 + Z.of_nat i <? 0) eqn:E0; [apply Z.ltb_lt in E0; lia|].
      rewrite Z.add_0_l, Nat2Z.id. done. }
  by rewrite Hsample.
Qed.

Lemma length_string_of_list_ascii (b : list Ascii.ascii) :
  String.length (String.string_of_list_ascii b) = length b.
Proof. induction b as [|c b IH]; simpl; [done|by rewrite IH]. Qed.

(** What the loop of [randString] returns: as many bytes as it was given,
    letters at every place that it or an earlier turn has filled. *)
Lemma randString_loop_safe (fuel : nat) :
  forall (b : list Ascii.ascii) (i cache remain : Z) (rng : R) b' rng',
    randString_loop fuel b i cache remain rng = Some (b', rng') ->
    (forall p c, i < Z.of_nat p -> b !! p = Some c ->
                 c ∈ String.list_ascii_of_string letterBytes) ->
    length b' = length b
    /\ Forall (fun c => c ∈ String.list_ascii_of_string letterBytes) b'.
Proof.
  induction fuel as [|fuel IH]; intros b i cache remain rng b' rng' Hloop Hfilled;
    [discriminate|].
  cbn [randString_loop] in Hloop.
  destruct (i <? 0) eqn:Ei.
  - injection Hloop as <- <-. split; [done|].
    apply Forall_forall. intros c Hc.
    apply list_elem_of_lookup_1 in Hc as [p Hp].
    apply (Hfilled p c); [lia|done].
  - destruct (if remain =? 0 then _ else _) as [[cache1 remain1] rng1].
    destruct (Z.land cache1 letterIdxMask <? Z.of_nat (String.length letterBytes)) eqn:Eidx.
    + apply IH in Hloop.
      * rewrite length_insert in Hloop. done.
      * intros p c Hp Hc.
        apply Z.ltb_ge in Ei.
        apply list_lookup_insert_Some in Hc as [(_ & <- & _)|[Hne Hc]].
        -- unfold letter.
           destruct (lookup_lt_is_Some_2 (String.list_ascii_of_string letterBytes)
                       (Z.to_nat (Z.land cache1 letterIdxMask))) as [c Hc].
           { apply Z.ltb_lt in Eidx. simpl in *. lia. }
           rewrite Hc. simpl. by eapply list_elem_of_lookup_2.
        -- apply (Hfilled p c); [lia|done].
    + apply IH in Hloop; [done|]. done.
Qed.

(** Whenever [randString] returns, the string has [n] characters and all
    of them are letters of [letterBytes]. *)
Theorem randString_safe (fuel : nat) (n : Z) (rng rng' : R) (s : string)
    (Hreturns : randString fuel n rng = Some (Some (s, rng'))) :
  0 <= n /\ Z.of_nat (String.length s) = n
  /\ Forall (fun c => c ∈ String.list_ascii_of_string letterBytes)
       (String.list_ascii_of_string s).
Proof.
  unfold randString in Hreturns.
  destruct (n <? 0) eqn:En; [discriminate|].
  destruct (Int63 rng) as [cache rng1].
  destruct (randString_loop fuel _ _ _ _ _) as [[b rng2]|] eqn:Eloop; [|discriminate].
  injection Hreturns as <- <-.
  apply randString_loop_safe in Eloop as [Hlen Hletters].
  - rewrite length_replicate in Hlen.
    rewrite String.list_ascii_of_string_of_list_ascii.
    split; [lia|]. split; [|done].
    rewrite length_string_of_list_ascii. lia.
  - intros p c Hp Hc. apply lookup_replicate in Hc as [_ Hc]. lia.
Qed.

(** The loop of [randString] ends when the first six bits of every
    number that the generator gives are the index of a letter: then at
    least one of the [letterIdxMax] turns on one number fills a place. *)
Lemma randString_loop_returns
    (Hletter : forall r, Z.land (Int63 r).1 letterIdxMask
                         < Z.of_nat (String.length letterBytes))
    (fuel : nat) :
  forall (b : list Ascii.ascii) (i cache remain : Z) (rng : R),
    0 <= remain <= letterIdxMax -> -1 <= i ->
    remain + letterIdxMax * (i + 1) < Z.of_nat fuel ->
    is_Some (randString_loop fuel b i cache remain rng).
Proof.
  change letterIdxMax with 10.
  induction fuel as [|fuel IH]; intros b i cache remain rng Hremain Hi Hfuel; [lia|].
  cbn [randString_loop].
  destruct (i <? 0) eqn:Ei; [by eexists|].
  apply Z.ltb_ge in Ei.
  change letterIdxMax with 10.
  destruct (remain =? 0) eqn:Eremain.
  - apply Z.eqb_eq in Eremain. subst remain.
    specialize (Hletter rng).
    destruct (Int63 rng) as [cache1 rng1]. cbn [fst] in Hletter.
    apply Z.ltb_lt in Hletter. rewrite Hletter.
    apply IH; lia.
  - apply Z.eqb_neq in Eremain.
    destruct (Z.land cache letterIdxMask <? Z.of_nat (String.length letterBytes));
      apply IH; lia.
Qed.

(** When the first six bits of every number of the generator are the
    index of a letter, [randString] returns a string of [n] letters, after
    at most [letterIdxMax * (n + 1)] turns of its loop. *)
Theorem randString_returns (fuel : nat) (n : Z) (rng : R)
    (Hletter : forall r, Z.land (Int63 r).1 letterIdxMask
                         < Z.of_nat (String.length letterBytes))
    (Hn : 0 <= n) (Hfuel : letterIdxMax * (n + 1) < Z.of_nat fuel) :
  exists s rng',
    randString fuel n rng = Some (Some (s, rng'))
    /\ Z.of_nat (String.length s) = n
    /\ Forall (fun c => c ∈ String.list_ascii_of_string letterBytes)
         (String.list_ascii_of_string s).
Proof.
  unfold randString.
  destruct (n <? 0) eqn:En; [apply Z.ltb_lt in En; lia|].
  destruct (Int63 rng) as [cache rng1].
  destruct (randString_loop_returns Hletter fuel
              (replicate (Z.to_nat n) Ascii.zero) (n - 1) cache letterIdxMax rng1)
    as [[b rng2] Hloop].
  { change letterIdxMax with 10. lia. }
  { lia. }
  { change letterIdxMax with 10 in *. lia. }
  rewrite Hloop. exists (String.string_of_list_ascii b), rng2. split; [done|].
  apply randString_loop_safe in Hloop as [Hlen Hletters].
  - rewrite length_replicate in Hlen.
    rewrite String.list_ascii_of_string_of_list_ascii, length_string_of_list_ascii.
    split; [lia|done].
  - intros p c Hp Hc. apply lookup_replicate in Hc as [_ Hc]. lia.
Qed.
End RandomFacts.

(** The contract of the generator alone does not end [randString]: on a
    generator whose numbers have all bits set no six bits are the index of
    a letter, and the loop for a string that is not empty runs for
    ever. *)
Theorem randString_may_spin :
  exists (R : Type) (ops : RandOps R),
    forall (fuel : nat) (n : Z) (rng : R), 0 < n -> randString fuel n rng = None.
Proof.
  exists unit, SampleRand.stuck. intros fuel n rng Hn.
  assert (Hloop : forall fuel b i cache remain,
             0 <= i ->
             (cache, remain) ∈ (fun r => (Z.ones (3 + 6 * r), r)) <$> seqZ 0 11 ->
             @randString_loop unit SampleRand.stuck fuel b i cache remain rng = None).
  { clear fuel. induction fuel as [|fuel IH]; intros b i cache remain Hi Hstate; [done|].
    cbn [randString_loop].
    destruct (i <? 0) eqn:Ei; [apply Z.ltb_lt in Ei; lia|].
    destruct rng.
    repeat (apply elem_of_cons in Hstate as [Hstate|Hstate];
            [injection Hstate as -> ->; cbn -[randString_loop];
             apply IH; [done|]; vm_compute; set_solver|]).
    by apply elem_of_nil in Hstate. }
  unfold randString.
  destruct (n <? 0) eqn:En; [apply Z.ltb_lt in En; lia|].
  destruct rng. cbn -[randString_loop].
  rewrite Hloop; [done|lia|]. vm_compute. set_solver.
Qed.

Lemma randomInts_spec_witness :
  exists ints rng',
    randomInts 3 10 20 (42 : Z) = Some (ints, rng')
    /\ Z.of_nat (length ints) = 3 /\ NoDup ints
    /\ forall x, x ∈ ints -> 10 <= x < 20.
Proof. apply (randomInts_spec 3 10 20 (42 : Z)); lia. Defined.

Lemma randomInts_short_range_witness :
  exists ints,
    randomInts 5 10 13 (42 : Z) = Some (ints, 42)
    /\ ints = seqZ 10 5 /\ 13 ∈ ints.
Proof. apply (randomInts_short_range 5 10 13 (42 : Z)); lia. Defined.

Lemma sampleInts_spec_witness :
  exists sample idxs rng',
    sampleInts [100; 200; 300; 400; 500] 3 (7 : Z) = Some (inr (sample, idxs), rng')
    /\ Z.of_nat (length sample) = 3 /\ Z.of_nat (length idxs) = 3
    /\ NoDup idxs
    /\ (forall i idx, idxs !! i = Some idx ->
          0 <= idx < 5 /\ sample !! i = [100; 200; 300; 400; 500] !! Z.to_nat idx)
    /\ sample ⊆+ [100; 200; 300; 400; 500].
Proof. apply (sampleInts_spec [100; 200; 300; 400; 500] 3 (7 : Z)); simpl; lia. Defined.

Lemma sampleInts_all_witness :
  sampleInts [100; 200; 300] 3 (7 : Z) = Some (inr ([100; 200; 300], [0; 1; 2]), 7).
Proof. apply (sampleInts_all [100; 200; 300] (7 : Z)). simpl. lia. Defined.

Lemma randString_safe_witness :
  randString 100 8 (12345 : Z) = Some (Some ("aaaaaada", SampleRand.next 12345))
  /\ 0 <= 8 /\ Z.of_nat (String.length "aaaaaada") = 8
  /\ Forall (fun c => c ∈ String.list_ascii_of_string letterBytes)
       (String.list_ascii_of_string "aaaaaada").
Proof.
  assert (Hreturns : randString 100 8 (12345 : Z)
                     = Some (Some ("aaaaaada", SampleRand.next 12345)))
    by (vm_compute; reflexivity).
  split; [exact Hreturns|].
  exact (randString_safe 100 8 (12345 : Z) _ _ Hreturns).
Defined.

Lemma Sample_steady_letters (r : Z) :
  Z.land (@Int63 Z SampleRand.steady r).1 letterIdxMask
  < Z.of_nat (String.length letterBytes).
Proof.
  cbn [Int63 SampleRand.steady fst].
  change letterIdxMask with (Z.ones 6).
  rewrite Z.land_ones by lia.
  change (2 ^ 6) with 64.
  rewrite Z.mul_comm, Z_mod_mult. simpl. lia.
Qed.

Lemma randString_returns_witness :
  exists s rng',
    @randString Z SampleRand.steady 100 3 5 = Some (Some (s, rng'))
    /\ Z.of_nat (String.length s) = 3
    /\ Forall (fun c => c ∈ String.list_ascii_of_string letterBytes)
         (String.list_ascii_of_string s).
Proof.
  apply (@randString_returns Z SampleRand.steady 100 3 5 Sample_steady_letters).
  - lia.
  - vm_compute. reflexivity.
Defined.
